(** * VMC renamer: MCGCP <-> GCMCE memory-card layouts

    A shallow embedding of [mc_vmc_renamer.py] and the properties of its
    region tables, planners and executor.

    Modelling conventions.
    - Python [str] is a byte string ([string]); [str.upper] acts on the
      ASCII letters, which is all the two directory patterns admit.
    - A [dict] is a [gmap string string]; the items of a parsed JSON object
      are an association list in document order, because the merge loop
      visits them in that order and later entries overwrite earlier ones.
    - A resolved [pathlib.Path] is the list of its components below the
      root; the filesystem is a tree of directories and regular files
      (no symbolic links, one device, no permission bits except a set of
      directories the OS refuses to remove).
    - Code that raises or touches the disk or the standard streams runs in
      a state-and-exception monad over [world]; a raised exception keeps
      the state reached so far, as in Python. *)

From Stdlib Require Import Ascii String NArith Bool Lia.
From stdpp Require Import gmap strings list fin_maps pretty.

Set Warnings "-register-all".

(** ** Strings *)

Module Str.

(** [str.upper] on one ASCII character. *)
Definition upper_ascii (a : ascii) : ascii :=
  let n := N_of_ascii a in
  if ((97 <=? n) && (n <=? 122))%N then ascii_of_N (n - 32) else a.

(** [s.upper()] *)
Fixpoint upper (s : string) : string :=
  match s with
  | EmptyString => EmptyString
  | String a s' => String (upper_ascii a) (upper s')
  end.

(** Character classes of the two directory patterns. *)
Definition is_AZ (a : ascii) : bool :=
  let n := N_of_ascii a in ((65 <=? n) && (n <=? 90))%N.

Definition is_09 (a : ascii) : bool :=
  let n := N_of_ascii a in ((48 <=? n) && (n <=? 57))%N.

Definition is_AZ09 (a : ascii) : bool := is_AZ a || is_09 a.

Fixpoint all_chars (f : ascii → bool) (s : string) : bool :=
  match s with
  | EmptyString => true
  | String a s' => f a && all_chars f s'
  end.

(** The line feed: [$] also matches just before a final one. *)
Definition nl : string := String (ascii_of_N 10) EmptyString.

(** [s[-1]] of a non-empty string; [None] stands for [IndexError]. *)
Fixpoint last_char (s : string) : option ascii :=
  match s with
  | EmptyString => None
  | String a EmptyString => Some a
  | String _ s' => last_char s'
  end.

Definition of_char (a : ascii) : string := String a EmptyString.

(** ["/".join(parts)] and friends. *)
Fixpoint join (sep : string) (l : list string) : string :=
  match l with
  | [] => ""
  | [x] => x
  | x :: l' => x +:+ sep +:+ join sep l'
  end.

End Str.

(** ** Region tables *)

Definition DEFAULT_REGION3_FROM_LETTER : gmap string string :=
  {[ "E" := "USA"; "J" := "JPN"; "P" := "EUR"; "K" := "KOR"; "D" := "GER";
     "F" := "FRA"; "I" := "ITA"; "S" := "ESP"; "X" := "OTH"; "Y" := "OTH";
     "Z" := "OTH" ]}.

Definition DEFAULT_LETTER_FROM_REGION3 : gmap string string :=
  {[ "USA" := "E"; "JPN" := "J"; "EUR" := "P"; "KOR" := "K"; "GER" := "D";
     "FRA" := "F"; "ITA" := "I"; "ESP" := "S"; "OTH" := "X" ]}.

(** The parsed override file: each of the two objects may be absent (or
    [null], or empty: [data.get(..) or {}] treats them alike). *)
Record region_override := {
  letter_to_region3 : option (list (string * string));
  region3_to_letter : option (list (string * string))
}.

(** [for k, v in items: table[k.upper()] = v.upper()] *)
Definition merge_items (table : gmap string string)
    (items : list (string * string)) : gmap string string :=
  fold_left (λ t kv, <[Str.upper kv.1 := Str.upper kv.2]> t) items table.

(** The body of [load_region_map] once the file has been parsed. *)
Definition merge_region_map (data : region_override)
    : gmap string string * gmap string string :=
  let l2r := merge_items DEFAULT_REGION3_FROM_LETTER
               (default [] (letter_to_region3 data)) in
  let r2l := merge_items DEFAULT_LETTER_FROM_REGION3
               (default [] (region3_to_letter data)) in
  (l2r, r2l).

(** ** Directory-name patterns *)

(** [RE_MCGCP_DIR.match(name)]: [^([A-Z0-9]{4})0100$]; the result is the
    [gameid] group. *)
Definition RE_MCGCP_DIR_match (name : string) : option string :=
  let gameid := substring 0 4 name in
  if (String.length gameid =? 4)%nat && Str.all_chars Str.is_AZ09 gameid
     && (String.eqb name (gameid +:+ "0100")
         || String.eqb name (gameid +:+ "0100" +:+ Str.nl))
  then Some gameid else None.

(** [RE_GCMCE_DIR.match(name)]: [^DL-DOL-([A-Z0-9]{4})-([A-Z]{3})$]; the
    result is the pair of groups [(gameid, region3)]. *)
Definition RE_GCMCE_DIR_match (name : string) : option (string * string) :=
  let gameid := substring 7 4 name in
  let region3 := substring 12 3 name in
  let body := "DL-DOL-" +:+ gameid +:+ "-" +:+ region3 in
  if (String.length gameid =? 4)%nat && Str.all_chars Str.is_AZ09 gameid
     && (String.length region3 =? 3)%nat && Str.all_chars Str.is_AZ region3
     && (String.eqb name body || String.eqb name (body +:+ Str.nl))
  then Some (gameid, region3) else None.

(** ** Exceptions *)

Inductive exn :=
  | FileExistsError
  | FileNotFoundError
  | NotADirectoryError
  | IsADirectoryError
  | SameFileError
  | OSError                (* any other errno: ENOTEMPTY, EBUSY, EINVAL, ... *)
  | RecursionError
  | IndexError
  | ParseError (msg : string). (* whatever the JSON reader raises *)

(** [isinstance(e, OSError)] *)
Definition is_OSError (e : exn) : bool :=
  match e with
  | RecursionError | IndexError | ParseError _ => false
  | _ => true
  end.

Inductive result (A : Type) :=
  | Ok (a : A)
  | Raise (e : exn).
Arguments Ok {A} a.
Arguments Raise {A} e.

#[global] Instance result_ret : MRet result := λ A a, Ok a.
#[global] Instance result_bind : MBind result := λ A B f r,
  match r with
  | Ok a => f a
  | Raise e => Raise e
  end.
#[global] Instance result_fmap : FMap result := λ A B f r,
  match r with
  | Ok a => Ok (f a)
  | Raise e => Raise e
  end.

(** ** The filesystem *)

Abbreviation path := (list string).

Inductive node :=
  | File (data : string)
  | Dir (entries : gmap string node).

Module Fs.

(** [p.parent] and [p.name]; the root is its own parent and has the
    empty name. *)
Definition parent (p : path) : path := removelast p.
Definition name (p : path) : string := default "" (last p).

(** [str(p)] *)
Definition path_str (p : path) : string := "/" +:+ Str.join "/" p.

(** Walk down from the root: the node at [p], or the [errno] the OS
    reports ([ENOENT] for a missing entry, [ENOTDIR] below a file). *)
Fixpoint resolve (t : node) (p : path) : result node :=
  match p with
  | [] => Ok t
  | c :: q =>
      match t with
      | Dir es =>
          match es !! c with
          | Some t' => resolve t' q
          | None => Raise FileNotFoundError
          end
      | File _ => Raise NotADirectoryError
      end
  end.

(** [p.exists()], [p.is_dir()] *)
Definition exists_ (t : node) (p : path) : bool :=
  match resolve t p with
  | Ok _ => true
  | Raise _ => false
  end.

Definition is_dir (t : node) (p : path) : bool :=
  match resolve t p with
  | Ok (Dir _) => true
  | _ => false
  end.

(** The names in a directory, in the order the OS lists them. *)
Definition listing (es : gmap string node) : list string :=
  (map_to_list es).*1.

(** [list(p.iterdir())] *)
Definition iterdir (t : node) (p : path) : result (list path) :=
  match resolve t p with
  | Ok (Dir es) => Ok ((λ c : string, p ++ [c]) <$> listing es)
  | Ok (File _) => Raise NotADirectoryError
  | Raise e => Raise e
  end.

(** [p.mkdir(parents=True, exist_ok=True)]: walks down from the root,
    creating what is missing; a regular file in the way is an error
    ([FileExistsError] as [p] itself, [NotADirectoryError] above it). *)
Fixpoint mkdir_p (t : node) (p : path) : result node :=
  match p with
  | [] =>
      match t with
      | Dir _ => Ok t
      | File _ => Raise FileExistsError
      end
  | c :: q =>
      match t with
      | Dir es =>
          match mkdir_p (default (Dir ∅) (es !! c)) q with
          | Ok r => Ok (Dir (<[c := r]> es))
          | Raise e => Raise e
          end
      | File _ => Raise NotADirectoryError
      end
  end.

(** Detach the entry at [p] (with everything below it). The root stays. *)
Fixpoint remove (t : node) (p : path) : node :=
  match p, t with
  | [c], Dir es => Dir (delete c es)
  | c :: q, Dir es =>
      match es !! c with
      | Some t' => Dir (<[c := remove t' q]> es)
      | None => t
      end
  | _, _ => t
  end.

(** Attach [new] at [p]. Callers establish that the parent of [p] is an
    existing directory. *)
Fixpoint put (t : node) (p : path) (new : node) : node :=
  match p, t with
  | [], _ => new
  | c :: q, Dir es =>
      Dir (<[c := put (default (Dir ∅) (es !! c)) q new]> es)
  | _ :: _, File _ => t
  end.

Definition is_empty_dir (es : gmap string node) : bool :=
  match map_to_list es with
  | [] => true
  | _ :: _ => false
  end.

End Fs.

(** ** The world and the execution monad *)

Record world := World {
  fs : node;
  (** directories the OS refuses to [rmdir] although they are empty
      (mount points, directories in use) *)
  busy : list path;
  stdout : list string;
  stderr : list string
}.

Definition set_fs (t : node) (w : world) : world :=
  World t (busy w) (stdout w) (stderr w).

Definition M (A : Type) : Type := world → world * result A.

#[global] Instance M_ret : MRet M := λ A a w, (w, Ok a).
#[global] Instance M_bind : MBind M := λ A B f m w,
  match m w with
  | (w', Ok a) => f a w'
  | (w', Raise e) => (w', Raise e)
  end.

Definition raise {A} (e : exn) : M A := λ w, (w, Raise e).

(** Run a computation that only reads the filesystem. *)
Definition reading {A} (f : node → result A) : M A := λ w, (w, f (fs w)).

(** [print(s)] and [print(s, file=sys.stderr)] *)
Definition print (s : string) : M unit := λ w,
  (World (fs w) (busy w) (stdout w ++ [s]) (stderr w), Ok tt).
Definition eprint (s : string) : M unit := λ w,
  (World (fs w) (busy w) (stdout w) (stderr w ++ [s]), Ok tt).

(** [try: m except OSError: pass] *)
Definition except_OSError_pass (m : M unit) : M unit := λ w,
  match m w with
  | (w', Raise e) => if is_OSError e then (w', Ok tt) else (w', Raise e)
  | r => r
  end.

(** ** Operating-system and library calls *)

Module Os.
Import Fs.

Definition exists_m (p : path) : M bool := reading (λ t, Ok (exists_ t p)).
Definition is_dir_m (p : path) : M bool := reading (λ t, Ok (is_dir t p)).
Definition iterdir_m (p : path) : M (list path) := reading (λ t, iterdir t p).

(** [p.mkdir(parents=True, exist_ok=True)] *)
Definition mkdir_parents (p : path) : M unit := λ w,
  match mkdir_p (fs w) p with
  | Ok t => (set_fs t w, Ok tt)
  | Raise e => (w, Raise e)
  end.

(** [p.unlink()] *)
Definition unlink (p : path) : M unit := λ w,
  match resolve (fs w) p with
  | Raise e => (w, Raise e)
  | Ok (Dir _) => (w, Raise IsADirectoryError)
  | Ok (File _) =>
      match p with
      | [] => (w, Raise OSError)
      | _ :: _ => (set_fs (remove (fs w) p) w, Ok tt)
      end
  end.

(** [shutil.rmtree(p)]; on the root everything below goes and the call
    still fails. *)
Definition rmtree (p : path) : M unit := λ w,
  match resolve (fs w) p with
  | Raise e => (w, Raise e)
  | Ok (File _) => (w, Raise NotADirectoryError)
  | Ok (Dir _) =>
      match p with
      | [] => (set_fs (Dir ∅) w, Raise OSError)
      | _ :: _ => (set_fs (remove (fs w) p) w, Ok tt)
      end
  end.

(** [p.rmdir()] *)
Definition rmdir (p : path) : M unit := λ w,
  match resolve (fs w) p with
  | Raise e => (w, Raise e)
  | Ok (File _) => (w, Raise NotADirectoryError)
  | Ok (Dir es) =>
      if negb (is_empty_dir es) || bool_decide (p = [])
         || bool_decide (p ∈ busy w)
      then (w, Raise OSError)
      else (set_fs (remove (fs w) p) w, Ok tt)
  end.

(** [src.replace(dst)], that is [rename(2)]. *)
Definition replace (src dst : path) : M unit := λ w,
  let t := fs w in
  let moved s := (set_fs (put (remove t src) dst s) w, Ok tt) in
  match resolve t src with
  | Raise e => (w, Raise e)
  | Ok s =>
      if bool_decide (src = dst) then (w, Ok tt)
      else if bool_decide (src `prefix_of` dst) then (w, Raise OSError)
      else
        match resolve t (parent dst) with
        | Raise e => (w, Raise e)
        | Ok (File _) => (w, Raise NotADirectoryError)
        | Ok (Dir _) =>
            match resolve t dst, s with
            | Raise _, _ => moved s
            | Ok (File _), File _ => moved s
            | Ok (File _), Dir _ => (w, Raise NotADirectoryError)
            | Ok (Dir _), File _ => (w, Raise IsADirectoryError)
            | Ok (Dir es), Dir _ =>
                if is_empty_dir es then moved s else (w, Raise OSError)
            end
        end
  end.

(** [shutil.copy2(src, dst)]: a destination that is a directory receives
    the file under the source's name. *)
Definition copy2 (src dst : path) : M unit := λ w,
  let t := fs w in
  let dst := if is_dir t dst then dst ++ [name src] else dst in
  match resolve t src with
  | Raise e => (w, Raise e)
  | Ok (Dir _) => (w, Raise IsADirectoryError)
  | Ok (File data) =>
      if bool_decide (src = dst) then (w, Raise SameFileError)
      else
        match resolve t dst with
        | Ok (Dir _) => (w, Raise IsADirectoryError)
        | Ok (File _) => (set_fs (put t dst (File data)) w, Ok tt)
        | Raise _ =>
            match resolve t (parent dst) with
            | Raise e => (w, Raise e)
            | Ok (File _) => (w, Raise NotADirectoryError)
            | Ok (Dir _) => (set_fs (put t dst (File data)) w, Ok tt)
            end
        end
  end.

(** Does copying [src] to [dst] descend into what it is writing?  That
    happens when [dst] lies below a directory that [src] already has. *)
Definition copies_into_itself (t : node) (src dst : path) : bool :=
  bool_decide (src `prefix_of` dst)
  && match drop (length src) dst with
     | c :: _ => is_dir t (src ++ [c])
     | [] => false
     end.

(** [shutil.copytree(src, dst)]: [src] is listed, then [dst] is made
    with its parents (it must not exist), then the entries are copied.
    A copy that descends into itself recurses until the interpreter
    gives up and leaves partial copies behind; here it raises at once
    and leaves the tree alone. *)
Definition copytree (src dst : path) : M unit := λ w,
  let t := fs w in
  match resolve t src with
  | Raise e => (w, Raise e)
  | Ok (File _) => (w, Raise NotADirectoryError)
  | Ok (Dir es) =>
      if exists_ t dst then (w, Raise FileExistsError)
      else if copies_into_itself t src dst then (w, Raise RecursionError)
      else
        match mkdir_p t dst with
        | Raise e => (w, Raise e)
        | Ok t' => (set_fs (put t' dst (Dir es)) w, Ok tt)
        end
  end.

(** [path.open("r").read()] *)
Definition read_text (p : path) : M string := reading (λ t,
  match resolve t p with
  | Raise e => Raise e
  | Ok (Dir _) => Raise IsADirectoryError
  | Ok (File data) => Ok data
  end).

End Os.

(** ** The program *)

Import Fs Os.

Record PlanItem := {
  src_dir : path;
  src_file : path;
  dst_dir : path;
  dst_file : path;
  action : string;  (* "move" or "copy" *)
  reason : string
}.

(** [log(msg, verbose)] *)
Definition log (msg : string) (verbose : bool) : M unit :=
  if verbose then print msg else mret tt.

(** One round of the loop of [scan_mcgcp]: the triple appended for
    [entry], if any. *)
Definition scan_mcgcp_entry (t : node) (entry : path)
    : option (path * path * string) :=
  if negb (is_dir t entry) then None
  else
    match RE_MCGCP_DIR_match (name entry) with
    | None => None
    | Some gameid =>
        let raw := entry ++ [name entry +:+ "-1.raw"] in
        if exists_ t raw then Some (entry, raw, gameid) else None
    end.

Definition scan_mcgcp (t : node) (memorycards_dir : path)
    : result (list (path * path * string)) :=
  if negb (exists_ t memorycards_dir) then Ok []
  else fmap (M:=result) (omap (M:=list) (scan_mcgcp_entry t))
         (iterdir t memorycards_dir).

Definition scan_gcmce_entry (t : node) (entry : path)
    : option (path * path * string * string) :=
  if negb (is_dir t entry) then None
  else
    match RE_GCMCE_DIR_match (name entry) with
    | None => None
    | Some (gameid, region3) =>
        let raw := entry ++ [name entry +:+ "-1.raw"] in
        if exists_ t raw then Some (entry, raw, gameid, region3) else None
    end.

Definition scan_gcmce (t : node) (gc_dir : path)
    : result (list (path * path * string * string)) :=
  if negb (exists_ t gc_dir) then Ok []
  else fmap (M:=result) (omap (M:=list) (scan_gcmce_entry t))
         (iterdir t gc_dir).

(** ["copy" if copy_mode else "move"] *)
Definition action_of (copy_mode : bool) : string :=
  if copy_mode then "copy" else "move".

(** The body of the loop of [plan_mcgcp_to_gcmce].  The directory name is
    appended as one component, which is what [dst_root / dst_dir_name]
    does as long as the region code taken from the table holds no slash
    (see [slash_free_values]); the properties that rest on the name being
    one component assume that of the table. *)
Definition plan_mcgcp_item (dst_root : path) (l2r : gmap string string)
    (copy_mode : bool) (e : path * path * string) : result PlanItem :=
  let '(src_dir, src_file, gameid) := e in
  match Str.last_char gameid with
  | None => Raise IndexError
  | Some region_letter =>
      let region3 :=
        default "OTH" (l2r !! Str.upper (Str.of_char region_letter)) in
      let dst_dir_name := "DL-DOL-" +:+ gameid +:+ "-" +:+ region3 in
      let dst_dir := dst_root ++ [dst_dir_name] in
      let dst_file := dst_dir ++ [dst_dir_name +:+ "-1.raw"] in
      Ok {| src_dir := src_dir; src_file := src_file;
            dst_dir := dst_dir; dst_file := dst_file;
            action := action_of copy_mode;
            reason := "MCGCP→GCMCE " +:+ gameid +:+ " -> " +:+ dst_dir_name |}
  end.

Definition plan_mcgcp_to_gcmce (t : node) (sd_root out_root : path)
    (l2r : gmap string string) (copy_mode : bool) : result (list PlanItem) :=
  let src_root := sd_root ++ ["MemoryCards"] in
  let dst_root := out_root ++ ["MemoryCards"; "GC"] in
  scan_mcgcp t src_root ≫= mapM (plan_mcgcp_item dst_root l2r copy_mode).

(** The body of the loop of [plan_gcmce_to_mcgcp]. *)
Definition plan_gcmce_item (dst_root : path) (copy_mode : bool)
    (e : path * path * string * string) : PlanItem :=
  let '(src_dir, src_file, gameid, region3) := e in
  let mcgcp_dirname := gameid +:+ "0100" in
  let dst_dir := dst_root ++ [mcgcp_dirname] in
  let dst_file := dst_dir ++ [mcgcp_dirname +:+ "-1.raw"] in
  {| src_dir := src_dir; src_file := src_file;
     dst_dir := dst_dir; dst_file := dst_file;
     action := action_of copy_mode;
     reason := "GCMCE→MCGCP DL-DOL-" +:+ gameid +:+ "-" +:+ region3
               +:+ " -> " +:+ mcgcp_dirname |}.

Definition plan_gcmce_to_mcgcp (t : node) (sd_root out_root : path)
    (r2l : gmap string string) (copy_mode : bool) : result (list PlanItem) :=
  let src_root := sd_root ++ ["MemoryCards"; "GC"] in
  let dst_root := out_root ++ ["MemoryCards"] in
  fmap (M:=result) (fmap (M:=list) (plan_gcmce_item dst_root copy_mode))
    (scan_gcmce t src_root).

Fixpoint print_plan_items (plan : list PlanItem) : M unit :=
  match plan with
  | [] => mret tt
  | p :: rest =>
      print ("  " +:+ Str.upper (action p) +:+ ": " +:+ path_str (src_file p)
             +:+ "  ->  " +:+ path_str (dst_file p)
             +:+ "   (" +:+ reason p +:+ ")") ;;
      print_plan_items rest
  end.

Definition print_plan (plan : list PlanItem) : M unit :=
  print "Planned operations:" ;;
  print_plan_items plan ;;
  print ("Total items: " +:+ pretty (length plan)).

Definition safe_copy (src dst : path) (overwrite : bool) : M unit :=
  mkdir_parents (parent dst) ;;
  (exists_m dst ≫= λ e : bool,
   if e then
     if overwrite then
       is_dir_m dst ≫= λ d : bool, if d then rmtree dst else unlink dst
     else raise FileExistsError
   else mret tt) ;;
  copy2 src dst.

Definition safe_move (src dst : path) (overwrite : bool) : M unit :=
  mkdir_parents (parent dst) ;;
  (exists_m dst ≫= λ e : bool,
   if e then
     if overwrite then
       is_dir_m dst ≫= λ d : bool, if d then rmtree dst else unlink dst
     else raise FileExistsError
   else mret tt) ;;
  replace src dst.

(** [try: next(d.iterdir()) except StopIteration: try: d.rmdir() except
    OSError: pass] *)
Definition remove_if_empty (d : path) : M unit :=
  iterdir_m d ≫= λ entries : list path,
  match entries with
  | _ :: _ => mret tt
  | [] => except_OSError_pass (rmdir d)
  end.

(** The body of the loop of [execute_plan]. *)
Definition execute_item (p : PlanItem) (overwrite dry_run verbose : bool)
    : M unit :=
  if dry_run then
    print ("[DRY-RUN] " +:+ Str.upper (action p) +:+ " "
           +:+ path_str (src_file p) +:+ " -> " +:+ path_str (dst_file p))
  else
    (if String.eqb (action p) "move" then
       safe_move (src_file p) (dst_file p) overwrite ;;
       remove_if_empty (src_dir p)
     else
       safe_copy (src_file p) (dst_file p) overwrite) ;;
    log ("OK: " +:+ action p +:+ " " +:+ path_str (src_file p) +:+ " -> "
         +:+ path_str (dst_file p)) verbose.

Fixpoint execute_plan (plan : list PlanItem) (overwrite dry_run verbose : bool)
    : M unit :=
  match plan with
  | [] => mret tt
  | p :: rest =>
      execute_item p overwrite dry_run verbose ;;
      execute_plan rest overwrite dry_run verbose
  end.

Definition do_backup (sd_root backup_dir : path) (overwrite dry_run : bool)
    : M unit :=
  let src := sd_root ++ ["MemoryCards"] in
  let dst := backup_dir ++ ["MemoryCards.backup"] in
  if dry_run then
    print ("[DRY-RUN] Would backup " +:+ path_str src +:+ " -> "
           +:+ path_str dst)
  else
    exists_m dst ≫= λ e : bool,
    (if e && overwrite then
       is_dir_m dst ≫= λ d : bool, if d then rmtree dst else unlink dst
     else mret tt) ;;
    print ("Backing up " +:+ path_str src +:+ " -> " +:+ path_str dst) ;;
    copytree src dst.

(** The parsed command line. Paths are given resolved; an option that is
    absent or empty is [None]. *)
Record Args := {
  arg_sd_root : path;
  arg_rename_to_gcmce : bool;
  arg_rename_to_mcgcp : bool;
  arg_output_sd_root : option path;
  arg_backup_dir : option path;
  arg_region_map_json : option path;
  arg_force : bool;
  arg_dry_run : bool;
  arg_verbose : bool
}.

(** [str(b)] for a [bool] *)
Definition bool_str (b : bool) : string := if b then "True" else "False".

(** The "build plan" step of [main]. *)
Definition build_plan (args : Args) (sd_root out_root : path)
    (l2r r2l : gmap string string) (copy_mode : bool) (t : node)
    : result (list PlanItem) :=
  if arg_rename_to_gcmce args
  then plan_mcgcp_to_gcmce t sd_root out_root l2r copy_mode
  else plan_gcmce_to_mcgcp t sd_root out_root r2l copy_mode.

Section Main.

(** [json.load] on the text of the override file, together with the
    shape the merge loops expect of its result: the parsed data, or the
    exception raised by the reader or by the first ill-typed access. *)
Variable json_load : string → result region_override.

Definition load_region_map (file : option path)
    : M (gmap string string * gmap string string) :=
  match file with
  | None => mret (DEFAULT_REGION3_FROM_LETTER, DEFAULT_LETTER_FROM_REGION3)
  | Some f =>
      text ← read_text f;
      data ← reading (λ _, json_load text);
      mret (merge_region_map data)
  end.

Definition main (args : Args) : M Z :=
  let sd_root := arg_sd_root args in
  exists_m (sd_root ++ ["MemoryCards"]) ≫= λ found : bool,
  if negb found then
    eprint ("ERROR: " +:+ path_str sd_root +:+ "/MemoryCards not found") ;;
    mret 1%Z
  else
    let out_root := default sd_root (arg_output_sd_root args) in
    let copy_mode := negb (bool_decide (out_root = sd_root)) in
    load_region_map (arg_region_map_json args) ≫= λ '(l2r, r2l),
    match arg_backup_dir args with
    | Some backup_dir =>
        mkdir_parents backup_dir ;;
        do_backup sd_root backup_dir (arg_force args) (arg_dry_run args)
    | None => mret tt
    end ;;
    reading (build_plan args sd_root out_root l2r r2l copy_mode)
    ≫= λ plan : list PlanItem,
    match plan with
    | [] =>
        print "No convertible entries found. Check source layout and flags." ;;
        mret 0%Z
    | _ :: _ =>
        print_plan plan ;;
        (if arg_verbose args then
           print ("Execute: overwrite=" +:+ bool_str (arg_force args)
                  +:+ " dry_run=" +:+ bool_str (arg_dry_run args)
                  +:+ " mode=" +:+ (if copy_mode then "COPY" else "MOVE"))
         else mret tt) ;;
        execute_plan plan (arg_force args) (arg_dry_run args)
          (arg_verbose args) ;;
        print "Done." ;;
        mret 0%Z
    end.

End Main.

(** ** Specification predicates and example inputs *)

(** The block [if dst.is_dir(): shutil.rmtree(dst) else: dst.unlink()],
    which [safe_copy], [safe_move] and [do_backup] all contain. *)
Definition remove_existing (dst : path) : M unit :=
  is_dir_m dst ≫= λ d : bool,
  if d then rmtree dst else unlink dst.

(** What [safe_copy] and [safe_move] do before the copy or the move: the
    parents of [dst] are made first, then an existing [dst] is removed or
    refused. *)
Definition clear_destination (dst : path) (overwrite : bool) : M unit :=
  mkdir_parents (parent dst) ;;
  exists_m dst ≫= λ e : bool,
  if e then
    if overwrite then remove_existing dst else raise FileExistsError
  else mret tt.

(** What the merge loop leaves in a table: an override entry decides its
    normalized key unless a later entry normalizes to the same key; every
    normalized override key is bound to the normalized value of one of the
    entries it comes from; every other key is as in the defaults. *)
Definition merged_into (defaults : gmap string string)
    (items : list (string * string)) (table : gmap string string) : Prop :=
  (∀ i k v, items !! i = Some (k, v) →
     (∀ j k' v', i < j → items !! j = Some (k', v') →
        Str.upper k' ≠ Str.upper k) →
     table !! Str.upper k = Some (Str.upper v))
  ∧ (∀ k v, (k, v) ∈ items →
       ∃ k' v', (k', v') ∈ items ∧ Str.upper k' = Str.upper k
                ∧ table !! Str.upper k = Some (Str.upper v'))
  ∧ (∀ key, (∀ k v, (k, v) ∈ items → Str.upper k ≠ key) →
       table !! key = defaults !! key).

(** The override used in the examples: two keys that differ only in case. *)
Definition shadowing_override : region_override :=
  {| letter_to_region3 := Some [("e", "usa"); ("E", "xyz")];
     region3_to_letter := None |}.

Definition override_world : world :=
  World (Dir {[ "map.json" := File "override" ]}) [] [] [].


(** The plan item the MCGCP planner owes to a scanned entry
    [(dir, file, gameid)]: the game ID is the first four characters of the
    directory name, and the region code in the destination is the table's
    value for its fourth character, or OTH when the table lacks it. *)
Definition planned_from_mcgcp (out_root : path) (l2r : gmap string string)
    (e : path * path * string) (p : PlanItem) : Prop :=
  ∃ letter,
    e.2 = substring 0 4 (name e.1.1)
    ∧ String.get 3 e.2 = Some letter
    ∧ src_dir p = e.1.1 ∧ src_file p = e.1.2
    ∧ (∀ r, l2r !! Str.of_char letter = Some r →
         dst_dir p = out_root ++ ["MemoryCards"; "GC";
                                  "DL-DOL-" +:+ e.2 +:+ "-" +:+ r])
    ∧ (l2r !! Str.of_char letter = None →
         dst_dir p = out_root ++ ["MemoryCards"; "GC";
                                  "DL-DOL-" +:+ e.2 +:+ "-" +:+ "OTH"])
    ∧ dst_file p = dst_dir p ++ [name (dst_dir p) +:+ "-1.raw"].

(** A card with an American save and one whose region letter W is in no
    table. *)
Definition mcgcp_tree : node :=
  Dir {[ "sd" := Dir {[ "MemoryCards" := Dir {[
    "GAFE0100" := Dir {[ "GAFE0100-1.raw" := File "gafe" ]};
    "GM4W0100" := Dir {[ "GM4W0100-1.raw" := File "gm4w" ]} ]} ]} ]}.

Definition mcgcp_entries : list (path * path * string) :=
  Eval vm_compute in
    match scan_mcgcp mcgcp_tree ["sd"; "MemoryCards"] with
    | Ok l => l
    | Raise _ => []
    end.

(** The destination the GCMCE planner owes to a source directory: built
    from the game ID in the directory name and from nothing else. *)
Definition planned_from_gcmce (out_root : path) (p : PlanItem) : Prop :=
  ∃ gameid region3,
    RE_GCMCE_DIR_match (name (src_dir p)) = Some (gameid, region3)
    ∧ dst_dir p = out_root ++ ["MemoryCards"; gameid +:+ "0100"]
    ∧ dst_file p = out_root ++ ["MemoryCards"; gameid +:+ "0100";
                                (gameid +:+ "0100") +:+ "-1.raw"].

(** One game saved under two region codes. *)
Definition gcmce_tree : node :=
  Dir {[ "sd" := Dir {[ "MemoryCards" := Dir {[ "GC" := Dir {[
    "DL-DOL-GAFE-USA" := Dir {[ "DL-DOL-GAFE-USA-1.raw" := File "usa" ]};
    "DL-DOL-GAFE-EUR" := Dir {[ "DL-DOL-GAFE-EUR-1.raw" := File "eur" ]}
  ]} ]} ]} ]}.

Definition gcmce_plan : list PlanItem :=
  Eval vm_compute in
    match plan_gcmce_to_mcgcp gcmce_tree ["sd"] ["sd"]
            DEFAULT_LETTER_FROM_REGION3 false with
    | Ok l => l
    | Raise _ => []
    end.

(** The two cards of the documented examples. *)
Definition example_mcgcp_card : node :=
  Dir {[ "sd" := Dir {[ "MemoryCards" := Dir {[
    "GAFE0100" := Dir {[ "GAFE0100-1.raw" := File "save" ]} ]} ]} ]}.

Definition example_gcmce_card : node :=
  Dir {[ "sd" := Dir {[ "MemoryCards" := Dir {[ "GC" := Dir {[
    "DL-DOL-GAFE-USA" := Dir {[ "DL-DOL-GAFE-USA-1.raw" := File "save" ]}
  ]} ]} ]} ]}.

(** A card that holds the same game in both layouts, so that converting
    either way collides, and the item the MCGCP planner makes for it. *)
Definition collision_tree : node :=
  Dir {[ "sd" := Dir {[ "MemoryCards" := Dir {[
    "GAFE0100" := Dir {[ "GAFE0100-1.raw" := File "new" ]};
    "GC" := Dir {[ "DL-DOL-GAFE-USA" :=
              Dir {[ "DL-DOL-GAFE-USA-1.raw" := File "old" ]} ]} ]} ]} ]}.

Definition collision_world : world := World collision_tree [] [] [].

Definition collision_item : PlanItem :=
  {| src_dir := ["sd"; "MemoryCards"; "GAFE0100"];
     src_file := ["sd"; "MemoryCards"; "GAFE0100"; "GAFE0100-1.raw"];
     dst_dir := ["sd"; "MemoryCards"; "GC"; "DL-DOL-GAFE-USA"];
     dst_file := ["sd"; "MemoryCards"; "GC"; "DL-DOL-GAFE-USA";
                  "DL-DOL-GAFE-USA-1.raw"];
     action := "move";
     reason := "MCGCP→GCMCE GAFE -> DL-DOL-GAFE-USA" |}.

(** A computation that leaves the filesystem as it found it, whatever it
    prints and whether or not it raises. *)
Definition fs_preserving {A} (m : M A) : Prop := ∀ w, fs (m w).1 = fs w.

(** A dry run of the GCMCE conversion with a backup directory that does not
    exist yet. *)
Definition dry_run_args : Args :=
  {| arg_sd_root := ["sd"];
     arg_rename_to_gcmce := true;
     arg_rename_to_mcgcp := false;
     arg_output_sd_root := None;
     arg_backup_dir := Some ["backup"];
     arg_region_map_json := None;
     arg_force := false;
     arg_dry_run := true;
     arg_verbose := false |}.

Definition dry_run_world : world := World example_mcgcp_card [] [] [].

(** No override file is read in the examples. *)
Definition no_json : string → result region_override :=
  λ _, Raise (ParseError "not read").

(** A card without the MemoryCards directory, and one with an empty one. *)
Definition blank_world : world := World (Dir {[ "sd" := Dir ∅ ]}) [] [] [].

Definition empty_card_world : world :=
  World (Dir {[ "sd" := Dir {[ "MemoryCards" := Dir ∅ ]} ]}) [] [] [].

Definition plain_args : Args :=
  {| arg_sd_root := ["sd"];
     arg_rename_to_gcmce := true;
     arg_rename_to_mcgcp := false;
     arg_output_sd_root := None;
     arg_backup_dir := None;
     arg_region_map_json := None;
     arg_force := false;
     arg_dry_run := false;
     arg_verbose := false |}.

(** The card of the first documented example, the item planned for it, and
    the same card with the source directory in use. *)
Definition move_world : world := World example_mcgcp_card [] [] [].

Definition move_item : PlanItem :=
  {| src_dir := ["sd"; "MemoryCards"; "GAFE0100"];
     src_file := ["sd"; "MemoryCards"; "GAFE0100"; "GAFE0100-1.raw"];
     dst_dir := ["sd"; "MemoryCards"; "GC"; "DL-DOL-GAFE-USA"];
     dst_file := ["sd"; "MemoryCards"; "GC"; "DL-DOL-GAFE-USA";
                  "DL-DOL-GAFE-USA-1.raw"];
     action := "move";
     reason := "MCGCP→GCMCE GAFE -> DL-DOL-GAFE-USA" |}.

Definition moved_world : world :=
  (safe_move (src_file move_item) (dst_file move_item) false move_world).1.

Definition busy_world : world :=
  World example_mcgcp_card [["sd"; "MemoryCards"; "GAFE0100"]] [] [].

(** [pathlib] reads a segment that does not begin with a slash, joined
    to a path, by cutting it at every slash and dropping the empty parts
    and the single dots; two dots stay.  [split_slash s cur] cuts [s],
    with [cur] the part begun. *)
Fixpoint split_slash (s cur : string) : list string :=
  match s with
  | EmptyString => [cur]
  | String a s' =>
      if Ascii.eqb a "/"%char then cur :: split_slash s' ""
      else split_slash s' (cur +:+ Str.of_char a)
  end.

Definition path_parts (s : string) : list string :=
  filter (λ c : string, c ≠ "" ∧ c ≠ ".") (split_slash s "").

Definition slash_free (s : string) : bool :=
  Str.all_chars (λ a, negb (Ascii.eqb a "/"%char)) s.

(** A name that [pathlib] joins to a path as the one component it is,
    and that does not lead back to the parent: for such a name, appending
    it to a [path] is what the source's [/] does, and two such names
    under one directory are the same place only if they are equal. *)
Definition single_component (s : string) : Prop :=
  path_parts s = [s] ∧ s ≠ "..".

(** A letter table none of whose values holds a slash: the directory
    names made from it are single path components, which is what
    [plan_mcgcp_item] takes them to be. *)
Definition slash_free_values (l2r : gmap string string) : Prop :=
  ∀ k v, l2r !! k = Some v → slash_free v = true.

(** What every plan item has, whichever planner made it: source and
    destination are children of the two roots, each file is named after
    its directory, the destination names are single path components, the
    source is on disk, and the action follows the copy mode. *)
Definition well_planned (t : node) (src_root dst_root : path)
    (copy_mode : bool) (p : PlanItem) : Prop :=
  ∃ c c',
    src_dir p = src_root ++ [c]
    ∧ src_file p = src_dir p ++ [c +:+ "-1.raw"]
    ∧ dst_dir p = dst_root ++ [c']
    ∧ dst_file p = dst_dir p ++ [c' +:+ "-1.raw"]
    ∧ single_component c'
    ∧ single_component (c' +:+ "-1.raw")
    ∧ is_dir t (src_dir p) = true
    ∧ exists_ t (src_file p) = true
    ∧ action p = (if copy_mode then "copy" else "move").

(** A letter table all of whose values the GCMCE pattern accepts as a
    region code. *)
Definition three_letter_values (l2r : gmap string string) : Prop :=
  ∀ k v, l2r !! k = Some v →
    String.length v = 3 ∧ Str.all_chars Str.is_AZ v = true.

(** The line a dry run prints for a plan item. *)
Definition dry_run_line (p : PlanItem) : string :=
  "[DRY-RUN] " +:+ Str.upper (action p) +:+ " " +:+ path_str (src_file p)
  +:+ " -> " +:+ path_str (dst_file p).

(** A copy of the save of [collision_tree] to a fresh place. *)
Definition copy_item : PlanItem :=
  {| src_dir := ["sd"; "MemoryCards"; "GAFE0100"];
     src_file := ["sd"; "MemoryCards"; "GAFE0100"; "GAFE0100-1.raw"];
     dst_dir := ["out"; "MemoryCards"; "GC"; "DL-DOL-GAFE-USA"];
     dst_file := ["out"; "MemoryCards"; "GC"; "DL-DOL-GAFE-USA";
                  "DL-DOL-GAFE-USA-1.raw"];
     action := "copy";
     reason := "MCGCP→GCMCE GAFE -> DL-DOL-GAFE-USA" |}.

Definition copied_world : world :=
  (execute_plan [copy_item] false false false collision_world).1.

(** A computation that leaves every regular file that is on disk where it
    is and as it is, whether it returns or raises. *)
Definition keeps_files {A} (m : M A) : Prop :=
  ∀ w q data,
    resolve (fs w) q = Ok (File data) →
    resolve (fs (m w).1) q = Ok (File data).

(** A copy of [collision_tree] to another root, without force. *)
Definition copy_args : Args :=
  {| arg_sd_root := ["sd"];
     arg_rename_to_gcmce := true;
     arg_rename_to_mcgcp := false;
     arg_output_sd_root := Some ["out"];
     arg_backup_dir := Some ["backup"];
     arg_region_map_json := None;
     arg_force := false;
     arg_dry_run := false;
     arg_verbose := false |}.

(** A copy onto the save that [collision_tree] already has in the other
    layout. *)
Definition copy_over_item : PlanItem :=
  {| src_dir := ["sd"; "MemoryCards"; "GAFE0100"];
     src_file := ["sd"; "MemoryCards"; "GAFE0100"; "GAFE0100-1.raw"];
     dst_dir := ["sd"; "MemoryCards"; "GC"; "DL-DOL-GAFE-USA"];
     dst_file := ["sd"; "MemoryCards"; "GC"; "DL-DOL-GAFE-USA";
                  "DL-DOL-GAFE-USA-1.raw"];
     action := "copy";
     reason := "MCGCP→GCMCE GAFE -> DL-DOL-GAFE-USA" |}.


Definition backed_up_world : world :=
  (do_backup ["sd"] ["backup"] false false move_world).1.

(** A run that names an override file that is not there. *)
Definition missing_map_args : Args :=
  {| arg_sd_root := ["sd"];
     arg_rename_to_gcmce := true;
     arg_rename_to_mcgcp := false;
     arg_output_sd_root := None;
     arg_backup_dir := Some ["backup"];
     arg_region_map_json := Some ["map.json"];
     arg_force := true;
     arg_dry_run := false;
     arg_verbose := true |}.

(** A move from a path where nothing is to a destination under
    directories that are not there yet, and the world once [mkdir] has
    made them. *)
Definition stray_src : path := ["sd"; "nowhere"].
Definition fresh_dst : path := ["out"; "MemoryCards"; "x.raw"].

Definition parents_made_world : world :=
  (mkdir_parents (parent fresh_dst) collision_world).1.

(** The plan for [mcgcp_tree], copied to another root. *)
Definition mcgcp_plan : list PlanItem :=
  Eval vm_compute in
    match plan_mcgcp_to_gcmce mcgcp_tree ["sd"] ["out"]
            DEFAULT_REGION3_FROM_LETTER true with
    | Ok l => l
    | Raise _ => []
    end.
(** * Properties *)

(** ** Strings and patterns *)

Lemma upper_AZ09 a : Str.is_AZ09 a = true → Str.upper_ascii a = a.
Proof.
  destruct a as [[] [] [] [] [] [] [] []]; vm_compute; congruence.
Qed.

Lemma last_char_4 g :
  String.length g = 4 → Str.all_chars Str.is_AZ09 g = true →
  ∃ a, Str.last_char g = Some a ∧ String.get 3 g = Some a
       ∧ Str.is_AZ09 a = true.
Proof.
  destruct g as [|a0 [|a1 [|a2 [|a3 [|]]]]]; try discriminate.
  intros _ H. cbn in H. exists a3. repeat split.
  repeat (apply andb_prop in H as [? H]). done.
Qed.

Lemma RE_MCGCP_DIR_match_Some nm g :
  RE_MCGCP_DIR_match nm = Some g →
  g = substring 0 4 nm ∧ String.length g = 4
  ∧ Str.all_chars Str.is_AZ09 g = true
  ∧ (nm = g +:+ "0100" ∨ nm = g +:+ "0100" +:+ Str.nl).
Proof.
  unfold RE_MCGCP_DIR_match.
  destruct (_ && _) eqn:H; [|discriminate]. intros [= <-].
  apply andb_prop in H as [H H3]. apply andb_prop in H as [H1 H2].
  apply Nat.eqb_eq in H1. repeat split; try done.
  apply orb_prop in H3 as [H3|H3]; apply String.eqb_eq in H3; auto.
Qed.

Lemma RE_GCMCE_DIR_match_Some nm g r :
  RE_GCMCE_DIR_match nm = Some (g, r) →
  g = substring 7 4 nm ∧ r = substring 12 3 nm.
Proof.
  unfold RE_GCMCE_DIR_match. destruct (_ && _); [|discriminate].
  by intros [= <- <-].
Qed.

Lemma mapM_result_Ok {A B} (f : A → result B) l k :
  mapM f l = Ok k ↔ Forall2 (λ x y, f x = Ok y) l k.
Proof.
  revert k. induction l as [|x l IH]; intros k; cbn.
  - split; [intros [= <-]; constructor | by inversion 1].
  - unfold mbind, result_bind, mret, result_ret in *. split.
    + destruct (f x) as [y|] eqn:Hx; [|discriminate].
      destruct (mapM f l) as [k'|] eqn:Hl; [|discriminate].
      intros [= <-]. constructor; [done|]. by apply IH.
    + inversion 1 as [|? y ? k' Hx Hl]; subst. rewrite Hx.
      apply IH in Hl. by rewrite Hl.
Qed.

(** Closed decidable goals are settled by evaluation. *)
Ltac decide_closed := apply (bool_decide_unpack _); vm_compute; exact I.

(** ** Region tables *)

(** C2: every key of the default letter table is one letter; a key whose
    image is not OTH is recovered by the default reverse table, and the
    keys X, Y and Z, exactly those with image OTH, all come back as X. *)
Theorem default_region_round_trip (L r : string) :
  DEFAULT_REGION3_FROM_LETTER !! L = Some r →
  String.length L = 1
  ∧ (r ≠ "OTH" → DEFAULT_LETTER_FROM_REGION3 !! r = Some L)
  ∧ (r = "OTH" ↔ L ∈ ["X"; "Y"; "Z"])
  ∧ (r = "OTH" → DEFAULT_LETTER_FROM_REGION3 !! r = Some "X").
Proof.
  intros H. apply elem_of_map_to_list in H.
  vm_compute map_to_list in H.
  repeat (apply elem_of_cons in H as [H|H]); try (by apply elem_of_nil in H);
    simplify_eq; decide_closed.
Qed.

Lemma default_region_round_trip_witness :
  String.length "E" = 1
  ∧ ("USA" ≠ "OTH" → DEFAULT_LETTER_FROM_REGION3 !! "USA" = Some "E")
  ∧ ("USA" = "OTH" ↔ "E" ∈ ["X"; "Y"; "Z"])
  ∧ ("USA" = "OTH" → DEFAULT_LETTER_FROM_REGION3 !! "USA" = Some "X").
Proof. apply (default_region_round_trip "E" "USA"). reflexivity. Defined.

Lemma merge_items_snoc table items k v :
  merge_items table (items ++ [(k, v)])
  = <[Str.upper k := Str.upper v]> (merge_items table items).
Proof. unfold merge_items. by rewrite fold_left_app. Qed.

Lemma merge_items_merged defaults items :
  merged_into defaults items (merge_items defaults items).
Proof.
  induction items as [|[k v] items IH] using rev_ind.
  - repeat split.
    + intros i k v H. by rewrite lookup_nil in H.
    + intros k v H. by apply elem_of_nil in H.
  - destruct IH as (IH1 & IH2 & IH3). rewrite merge_items_snoc.
    repeat split.
    + intros i k0 v0 Hi Hlast.
      destruct (decide (i = length items)) as [->|Hne].
      * rewrite list_lookup_middle in Hi by done. simplify_eq.
        apply lookup_insert_eq.
      * assert (Hlt : i < length items).
        { apply lookup_lt_Some in Hi. rewrite length_app in Hi. cbn in Hi. lia. }
        rewrite lookup_app_l in Hi by done.
        rewrite lookup_insert_ne.
        -- apply (IH1 i); [done|]. intros j k' v' Hj Hj'. apply (Hlast j k' v' Hj).
           rewrite lookup_app_l; [done|]. by apply lookup_lt_Some in Hj'.
        -- apply (Hlast (length items) k v Hlt). by apply list_lookup_middle.
    + intros k0 v0 Hin.
      destruct (decide (Str.upper k = Str.upper k0)) as [Heq|Hne].
      * exists k, v. split; [apply elem_of_app; right; apply list_elem_of_here|].
        split; [done|]. rewrite <- Heq. apply lookup_insert_eq.
      * apply elem_of_app in Hin as [Hin|Hin].
        -- destruct (IH2 _ _ Hin) as (k' & v' & ? & ? & ?).
           exists k', v'. split; [apply elem_of_app; by left|].
           split; [done|]. by rewrite lookup_insert_ne.
        -- apply list_elem_of_singleton in Hin. simplify_eq.
    + intros key Hkey. rewrite lookup_insert_ne.
      * apply IH3. intros k0 v0 Hin. apply (Hkey k0 v0). apply elem_of_app.
        by left.
      * apply (Hkey k v). apply elem_of_app. right. apply list_elem_of_here.
Qed.

(** C6, as the merge loop behaves: after a successful read of the override
    file both tables are the defaults merged with the override's items, so
    every override key is present in upper case, bound to the upper-cased
    value of the last entry that normalizes to it, and every key no entry
    normalizes to keeps its default binding. *)
Theorem load_region_map_merges (json_load : string → result region_override)
    (f : path) (w : world) (text : string) (data : region_override) :
  resolve (fs w) f = Ok (File text) →
  json_load text = Ok data →
  ∃ l2r r2l,
    load_region_map json_load (Some f) w = (w, Ok (l2r, r2l))
    ∧ merged_into DEFAULT_REGION3_FROM_LETTER
        (default [] (letter_to_region3 data)) l2r
    ∧ merged_into DEFAULT_LETTER_FROM_REGION3
        (default [] (region3_to_letter data)) r2l.
Proof.
  intros Hf Hj. eexists _, _. split; [|split; apply merge_items_merged].
  unfold load_region_map, read_text, reading, mbind, M_bind, mret, M_ret.
  by rewrite Hf, Hj.
Qed.

Lemma load_region_map_merges_witness :
  ∃ l2r r2l,
    load_region_map (λ _, Ok shadowing_override) (Some ["map.json"])
      override_world = (override_world, Ok (l2r, r2l))
    ∧ merged_into DEFAULT_REGION3_FROM_LETTER
        (default [] (letter_to_region3 shadowing_override)) l2r
    ∧ merged_into DEFAULT_LETTER_FROM_REGION3
        (default [] (region3_to_letter shadowing_override)) r2l.
Proof.
  apply (load_region_map_merges (λ _, Ok shadowing_override) ["map.json"]
           override_world "override" shadowing_override);
    reflexivity.
Defined.

(** C6 as stated fails: the override key e (value usa) is in the file, yet
    under its normalized key the merged table holds XYZ, the value of the
    later key E, and not USA. *)
Lemma load_region_map_shadowed_key :
  ∃ l2r r2l,
    load_region_map (λ _, Ok shadowing_override) (Some ["map.json"])
      override_world = (override_world, Ok (l2r, r2l))
    ∧ ("e", "usa") ∈ default [] (letter_to_region3 shadowing_override)
    ∧ l2r !! Str.upper "e" = Some "XYZ"
    ∧ l2r !! Str.upper "e" ≠ Some (Str.upper "usa").
Proof.
  eexists _, _. split; [reflexivity|]. split; [apply list_elem_of_here|].
  split; [reflexivity|]. vm_compute. discriminate.
Qed.


(** ** Paths and lookups *)

Lemma name_snoc (p : path) c : name (p ++ [c]) = c.
Proof. unfold name. by rewrite last_snoc. Qed.

Lemma parent_snoc (p : path) c : parent (p ++ [c]) = p.
Proof. unfold parent. apply removelast_last. Qed.

Lemma resolve_app t p q :
  resolve t (p ++ q) = resolve t p ≫= λ n, resolve n q.
Proof.
  revert t. induction p as [|c p IH]; intros t; [done|].
  cbn. destruct t as [|es]; [done|]. destruct (es !! c); [apply IH|done].
Qed.

Lemma resolve_app_Ok t p q n :
  resolve t p = Ok n → resolve t (p ++ q) = resolve n q.
Proof. intros H. by rewrite resolve_app, H. Qed.

Lemma listing_singleton c n : listing {[c := n]} = [c].
Proof. unfold listing. by rewrite map_to_list_singleton. Qed.

(** ** The scanners *)

Lemma scan_mcgcp_entry_Some t entry d f g :
  scan_mcgcp_entry t entry = Some (d, f, g) →
  d = entry ∧ f = entry ++ [name entry +:+ "-1.raw"]
  ∧ RE_MCGCP_DIR_match (name entry) = Some g
  ∧ is_dir t entry = true ∧ exists_ t f = true.
Proof.
  unfold scan_mcgcp_entry. destruct (is_dir t entry); [|discriminate]. cbn.
  destruct (RE_MCGCP_DIR_match _) as [g'|]; [|discriminate].
  destruct (exists_ t _) eqn:He; [|discriminate]. by intros [= <- <- <-].
Qed.

Lemma scan_mcgcp_elem t dir entries d f g :
  scan_mcgcp t dir = Ok entries → (d, f, g) ∈ entries →
  scan_mcgcp_entry t d = Some (d, f, g).
Proof.
  unfold scan_mcgcp. destruct (negb _).
  - intros [= <-] H. by apply elem_of_nil in H.
  - destruct (iterdir t dir) as [es|]; [|discriminate]. cbn.
    intros [= <-] H. apply list_elem_of_omap in H as (entry & _ & H).
    by destruct (scan_mcgcp_entry_Some _ _ _ _ _ H) as (-> & _).
Qed.

Lemma scan_gcmce_entry_Some t entry d f g r :
  scan_gcmce_entry t entry = Some (d, f, g, r) →
  d = entry ∧ f = entry ++ [name entry +:+ "-1.raw"]
  ∧ RE_GCMCE_DIR_match (name entry) = Some (g, r)
  ∧ is_dir t entry = true ∧ exists_ t f = true.
Proof.
  unfold scan_gcmce_entry. destruct (is_dir t entry); [|discriminate]. cbn.
  destruct (RE_GCMCE_DIR_match _) as [[g' r']|]; [|discriminate].
  destruct (exists_ t _) eqn:He; [|discriminate]. by intros [= <- <- <- <-].
Qed.

Lemma scan_gcmce_elem t dir entries d f g r :
  scan_gcmce t dir = Ok entries → (d, f, g, r) ∈ entries →
  scan_gcmce_entry t d = Some (d, f, g, r).
Proof.
  unfold scan_gcmce. destruct (negb _).
  - intros [= <-] H. by apply elem_of_nil in H.
  - destruct (iterdir t dir) as [es|]; [|discriminate]. cbn.
    intros [= <-] H. apply list_elem_of_omap in H as (entry & _ & H).
    by destruct (scan_gcmce_entry_Some _ _ _ _ _ _ H) as (-> & _).
Qed.

Lemma mapM_result_Forall {A B} (f : A → result B) (R : A → B → Prop) l :
  Forall (λ x, ∃ y, f x = Ok y ∧ R x y) l →
  ∃ k, mapM f l = Ok k ∧ Forall2 R l k.
Proof.
  induction 1 as [|x l (y & Hy & HR) _ (k & Hk & IH)].
  - exists []. split; [done|constructor].
  - exists (y :: k). split; [|by constructor].
    apply mapM_result_Ok. constructor; [done|]. by apply mapM_result_Ok.
Qed.

(** ** The planners *)

(** C7: the planner turns every scanned MCGCP entry into one plan item,
    in order; the region code in the destination names is the table's
    value for the fourth character of the game ID when the table has that
    letter, and OTH when it has not. *)
Theorem plan_mcgcp_region3 (t : node) (sd_root out_root : path)
    (l2r : gmap string string) (copy_mode : bool)
    (entries : list (path * path * string)) :
  scan_mcgcp t (sd_root ++ ["MemoryCards"]) = Ok entries →
  ∃ plan,
    plan_mcgcp_to_gcmce t sd_root out_root l2r copy_mode = Ok plan
    ∧ Forall2 (planned_from_mcgcp out_root l2r) entries plan.
Proof.
  intros Hscan. unfold plan_mcgcp_to_gcmce. rewrite Hscan. cbn.
  apply mapM_result_Forall, Forall_forall. intros [[d f] g] Hin.
  apply (scan_mcgcp_elem _ _ _ _ _ _ Hscan) in Hin.
  apply scan_mcgcp_entry_Some in Hin as (_ & _ & Hm & _).
  apply RE_MCGCP_DIR_match_Some in Hm as (Hg & Hlen & Hall & _).
  destruct (last_char_4 g Hlen Hall) as (a & Hlast & Hget & Ha).
  unfold plan_mcgcp_item. rewrite Hlast. eexists. split; [reflexivity|].
  exists a. unfold planned_from_mcgcp. cbn. rewrite (upper_AZ09 a Ha). fold (Str.of_char a).
  repeat split; try done.
  - intros r ->. cbn. by rewrite <- !app_assoc.
  - intros ->. cbn. by rewrite <- !app_assoc.
  - by rewrite last_snoc.
Qed.

Lemma plan_mcgcp_region3_witness :
  scan_mcgcp mcgcp_tree (["sd"] ++ ["MemoryCards"]) = Ok mcgcp_entries
  ∧ ∃ plan,
      plan_mcgcp_to_gcmce mcgcp_tree ["sd"] ["sd"]
        DEFAULT_REGION3_FROM_LETTER false = Ok plan
      ∧ Forall2 (planned_from_mcgcp ["sd"] DEFAULT_REGION3_FROM_LETTER)
          mcgcp_entries plan.
Proof.
  split; [vm_compute; reflexivity|].
  apply (plan_mcgcp_region3 mcgcp_tree ["sd"] ["sd"]
           DEFAULT_REGION3_FROM_LETTER false mcgcp_entries).
  vm_compute. reflexivity.
Defined.

Example plan_mcgcp_unmapped_letter :
  fmap (M:=result) (fmap (M:=list) dst_file)
    (plan_mcgcp_to_gcmce mcgcp_tree ["sd"] ["out"]
       DEFAULT_REGION3_FROM_LETTER true)
  = Ok [["out"; "MemoryCards"; "GC"; "DL-DOL-GM4W-OTH";
         "DL-DOL-GM4W-OTH-1.raw"];
        ["out"; "MemoryCards"; "GC"; "DL-DOL-GAFE-USA";
         "DL-DOL-GAFE-USA-1.raw"]].
Proof. vm_compute. reflexivity. Qed.

Lemma plan_gcmce_elem t sd_root out_root r2l copy_mode plan p :
  plan_gcmce_to_mcgcp t sd_root out_root r2l copy_mode = Ok plan →
  p ∈ plan → planned_from_gcmce out_root p.
Proof.
  unfold plan_gcmce_to_mcgcp.
  destruct (scan_gcmce _ _) as [entries|] eqn:Hscan; [|discriminate].
  cbn. intros [= <-] Hin.
  apply list_elem_of_fmap in Hin as ([[[d f] g] r] & -> & Hin).
  apply (scan_gcmce_elem _ _ _ _ _ _ _ Hscan) in Hin.
  apply scan_gcmce_entry_Some in Hin as (_ & _ & Hm & _).
  exists g, r. cbn. split; [done|]. by rewrite <- !app_assoc.
Qed.

(** C9: the GCMCE planner never looks at the region table, and the
    destination of every plan item is built from the game ID of its source
    directory alone; two items whose source directories carry the same game
    ID, whatever their region codes, have the same destination. *)
Theorem plan_gcmce_destination_by_gameid (t : node) (sd_root out_root : path)
    (r2l : gmap string string) (copy_mode : bool) (plan : list PlanItem) :
  plan_gcmce_to_mcgcp t sd_root out_root r2l copy_mode = Ok plan →
  (∀ r2l', plan_gcmce_to_mcgcp t sd_root out_root r2l' copy_mode = Ok plan)
  ∧ Forall (planned_from_gcmce out_root) plan
  ∧ (∀ p1 p2 g r1 r2, p1 ∈ plan → p2 ∈ plan →
       RE_GCMCE_DIR_match (name (src_dir p1)) = Some (g, r1) →
       RE_GCMCE_DIR_match (name (src_dir p2)) = Some (g, r2) →
       dst_dir p1 = dst_dir p2 ∧ dst_file p1 = dst_file p2).
Proof.
  intros Hplan. split; [done|]. split.
  - apply Forall_forall. intros p. by eapply plan_gcmce_elem.
  - intros p1 p2 g r1 r2 H1 H2 Hm1 Hm2.
    destruct (plan_gcmce_elem _ _ _ _ _ _ _ Hplan H1) as (? & ? & ? & -> & ->).
    destruct (plan_gcmce_elem _ _ _ _ _ _ _ Hplan H2) as (? & ? & ? & -> & ->).
    by simplify_eq.
Qed.

Lemma plan_gcmce_destination_by_gameid_witness :
  plan_gcmce_to_mcgcp gcmce_tree ["sd"] ["sd"] DEFAULT_LETTER_FROM_REGION3
    false = Ok gcmce_plan
  ∧ (∀ r2l', plan_gcmce_to_mcgcp gcmce_tree ["sd"] ["sd"] r2l' false
             = Ok gcmce_plan)
  ∧ Forall (planned_from_gcmce ["sd"]) gcmce_plan
  ∧ (∀ p1 p2 g r1 r2, p1 ∈ gcmce_plan → p2 ∈ gcmce_plan →
       RE_GCMCE_DIR_match (name (src_dir p1)) = Some (g, r1) →
       RE_GCMCE_DIR_match (name (src_dir p2)) = Some (g, r2) →
       dst_dir p1 = dst_dir p2 ∧ dst_file p1 = dst_file p2).
Proof.
  split; [vm_compute; reflexivity|].
  apply (plan_gcmce_destination_by_gameid gcmce_tree ["sd"] ["sd"]
           DEFAULT_LETTER_FROM_REGION3 false gcmce_plan).
  vm_compute. reflexivity.
Defined.

Example plan_gcmce_same_destination :
  fmap (M:=list) (λ p, (name (src_dir p), dst_file p)) gcmce_plan
  = [("DL-DOL-GAFE-USA", ["sd"; "MemoryCards"; "GAFE0100"; "GAFE0100-1.raw"]);
     ("DL-DOL-GAFE-EUR", ["sd"; "MemoryCards"; "GAFE0100"; "GAFE0100-1.raw"])].
Proof. vm_compute. reflexivity. Qed.

Lemma resolve_singleton c n q : resolve (Dir {[c := n]}) (c :: q) = resolve n q.
Proof. cbn. by rewrite lookup_singleton_eq. Qed.

(** Evaluate the lookups that start at a closed subtree. *)
Ltac eval_resolve :=
  repeat match goal with
  | |- context [resolve (Dir ?m) ?q] =>
      let x := fresh in
      set (x := resolve (Dir m) q); vm_compute in x; subst x
  end.

(** C3: the two documented examples. A card holding only
    MemoryCards/GAFE0100/GAFE0100-1.raw is planned, with the default table,
    as one item whose destination is
    MemoryCards/GC/DL-DOL-GAFE-USA/DL-DOL-GAFE-USA-1.raw under the output
    root; a card holding only
    MemoryCards/GC/DL-DOL-GAFE-USA/DL-DOL-GAFE-USA-1.raw is planned as one
    item whose destination is MemoryCards/GAFE0100/GAFE0100-1.raw. *)
Theorem plan_documented_examples (t1 t2 : node) (sd_root out_root : path)
    (copy_mode : bool) (data1 data2 : string) :
  resolve t1 (sd_root ++ ["MemoryCards"])
    = Ok (Dir {[ "GAFE0100" := Dir {[ "GAFE0100-1.raw" := File data1 ]} ]}) →
  resolve t2 (sd_root ++ ["MemoryCards"])
    = Ok (Dir {[ "GC" := Dir {[ "DL-DOL-GAFE-USA" :=
            Dir {[ "DL-DOL-GAFE-USA-1.raw" := File data2 ]} ]} ]}) →
  (∃ p,
     plan_mcgcp_to_gcmce t1 sd_root out_root DEFAULT_REGION3_FROM_LETTER
       copy_mode = Ok [p]
     ∧ src_file p = sd_root ++ ["MemoryCards"; "GAFE0100"; "GAFE0100-1.raw"]
     ∧ dst_dir p = out_root ++ ["MemoryCards"; "GC"; "DL-DOL-GAFE-USA"]
     ∧ dst_file p = out_root ++ ["MemoryCards"; "GC"; "DL-DOL-GAFE-USA";
                                 "DL-DOL-GAFE-USA-1.raw"])
  ∧ (∃ p,
       plan_gcmce_to_mcgcp t2 sd_root out_root DEFAULT_LETTER_FROM_REGION3
         copy_mode = Ok [p]
       ∧ src_file p = sd_root ++ ["MemoryCards"; "GC"; "DL-DOL-GAFE-USA";
                                  "DL-DOL-GAFE-USA-1.raw"]
       ∧ dst_dir p = out_root ++ ["MemoryCards"; "GAFE0100"]
       ∧ dst_file p = out_root ++ ["MemoryCards"; "GAFE0100";
                                   "GAFE0100-1.raw"]).
Proof.
  intros H1 H2. split.
  - unfold plan_mcgcp_to_gcmce, scan_mcgcp, iterdir, exists_.
    rewrite H1, listing_singleton. cbn [negb fmap result_fmap list_fmap].
    cbn [omap list_omap]. unfold scan_mcgcp_entry, is_dir, exists_.
    rewrite name_snoc, !resolve_app. rewrite resolve_app in H1. rewrite H1. cbn [mbind result_bind].
    eval_resolve. cbn [negb mbind result_bind]. eval_resolve.
    change (RE_MCGCP_DIR_match "GAFE0100") with (Some "GAFE").
    cbn. eexists. split; [reflexivity|]. cbn.
    by rewrite <- !app_assoc.
  - unfold plan_gcmce_to_mcgcp, scan_gcmce, iterdir, exists_.
    replace (sd_root ++ ["MemoryCards"; "GC"])
      with ((sd_root ++ ["MemoryCards"]) ++ ["GC"]) by by rewrite <- app_assoc.
    rewrite (resolve_app_Ok _ _ _ _ H2), resolve_singleton. cbn [resolve].
    rewrite listing_singleton. cbn [negb fmap result_fmap list_fmap].
    cbn [omap list_omap]. unfold scan_gcmce_entry, is_dir, exists_.
    rewrite name_snoc, !resolve_app. rewrite resolve_app in H2. rewrite H2. cbn [mbind result_bind].
    eval_resolve. cbn [negb mbind result_bind]. eval_resolve.
    change (RE_GCMCE_DIR_match "DL-DOL-GAFE-USA") with (Some ("GAFE", "USA")).
    cbn. eexists. split; [reflexivity|]. cbn.
    by rewrite <- !app_assoc.
Qed.

Lemma plan_documented_examples_witness :
  (∃ p,
     plan_mcgcp_to_gcmce example_mcgcp_card ["sd"] ["out"]
       DEFAULT_REGION3_FROM_LETTER true = Ok [p]
     ∧ src_file p = ["sd"] ++ ["MemoryCards"; "GAFE0100"; "GAFE0100-1.raw"]
     ∧ dst_dir p = ["out"] ++ ["MemoryCards"; "GC"; "DL-DOL-GAFE-USA"]
     ∧ dst_file p = ["out"] ++ ["MemoryCards"; "GC"; "DL-DOL-GAFE-USA";
                                "DL-DOL-GAFE-USA-1.raw"])
  ∧ (∃ p,
       plan_gcmce_to_mcgcp example_gcmce_card ["sd"] ["out"]
         DEFAULT_LETTER_FROM_REGION3 true = Ok [p]
       ∧ src_file p = ["sd"] ++ ["MemoryCards"; "GC"; "DL-DOL-GAFE-USA";
                                 "DL-DOL-GAFE-USA-1.raw"]
       ∧ dst_dir p = ["out"] ++ ["MemoryCards"; "GAFE0100"]
       ∧ dst_file p = ["out"] ++ ["MemoryCards"; "GAFE0100";
                                  "GAFE0100-1.raw"]).
Proof.
  apply (plan_documented_examples example_mcgcp_card example_gcmce_card
           ["sd"] ["out"] true "save" "save");
    vm_compute; reflexivity.
Defined.

(** ** The monad *)

Lemma set_fs_id w : set_fs (fs w) w = w.
Proof. by destruct w. Qed.

Lemma bind_Ok {A B} (m : M A) (f : A → M B) w w1 a :
  m w = (w1, Ok a) → (m ≫= f) w = f a w1.
Proof. unfold mbind, M_bind. by intros ->. Qed.

Lemma bind_Raise {A B} (m : M A) (f : A → M B) w w1 e :
  m w = (w1, Raise e) → (m ≫= f) w = (w1, Raise e).
Proof. unfold mbind, M_bind. by intros ->. Qed.

Lemma bind_inv_Ok {A B} (m : M A) (f : A → M B) w w' b :
  (m ≫= f) w = (w', Ok b) →
  ∃ w1 a, m w = (w1, Ok a) ∧ f a w1 = (w', Ok b).
Proof.
  unfold mbind, M_bind. destruct (m w) as [w1 [a|e]]; [eauto|discriminate].
Qed.

(** ** Making and removing entries *)

Lemma resolve_parent t p n :
  resolve t p = Ok n → p ≠ [] → ∃ es, resolve t (parent p) = Ok (Dir es).
Proof.
  revert t. induction p as [|c p IH]; intros t H Hne; [done|].
  cbn in H. destruct t as [|es]; [done|].
  destruct (es !! c) as [t'|] eqn:Hc; [|done].
  destruct p as [|c' p]; [by exists es|].
  destruct (IH t' H) as [es' H']; [done|]. exists es'.
  unfold parent in *. cbn [removelast resolve] in *. by rewrite Hc.
Qed.

Lemma mkdir_p_resolved t p es : resolve t p = Ok (Dir es) → mkdir_p t p = Ok t.
Proof.
  revert t. induction p as [|c p IH]; intros t H; cbn in *.
  - by simplify_eq.
  - destruct t as [|es0]; [done|]. destruct (es0 !! c) as [t'|] eqn:Hc; [|done].
    cbn. rewrite (IH t' H). by rewrite insert_id.
Qed.

(** After [mkdir_p] every directory on the way down to [p] is there. *)
Lemma mkdir_p_chain t p t' q :
  mkdir_p t p = Ok t' → q `prefix_of` p → is_dir t' q = true.
Proof.
  revert t t' q. induction p as [|c p IH]; intros t t' q H Hq.
  - apply prefix_nil_inv in Hq as ->. cbn in H. destruct t; by simplify_eq.
  - cbn in H. destruct t as [|es]; [done|].
    destruct (mkdir_p _ p) as [r|] eqn:Hr; [|done]. simplify_eq.
    destruct q as [|c' q]; [done|].
    apply prefix_cons_inv_1 in Hq as Hc. apply prefix_cons_inv_2 in Hq.
    subst c'. unfold is_dir. cbn. rewrite lookup_insert_eq.
    apply (IH _ _ _ Hr Hq).
Qed.

Lemma exists_remove t p : p ≠ [] → exists_ (remove t p) p = false.
Proof.
  unfold exists_. revert t. induction p as [|c p IH]; intros t Hne; [done|].
  destruct t as [|es]; [by destruct p|].
  destruct p as [|c' p].
  - cbn. by rewrite lookup_delete_eq.
  - cbn [remove]. destruct (es !! c) as [t'|] eqn:Hc.
    + cbn [resolve]. rewrite lookup_insert_eq. by apply IH.
    + cbn [resolve]. by rewrite Hc.
Qed.

(** ** Collisions *)

Lemma safe_move_clear src dst overwrite w :
  safe_move src dst overwrite w
  = (clear_destination dst overwrite ;; replace src dst) w.
Proof.
  unfold safe_move, clear_destination, remove_existing, mbind, M_bind.
  by destruct (mkdir_parents (parent dst) w) as [w1 [[]|e]].
Qed.

Lemma safe_copy_clear src dst overwrite w :
  safe_copy src dst overwrite w
  = (clear_destination dst overwrite ;; copy2 src dst) w.
Proof.
  unfold safe_copy, clear_destination, remove_existing, mbind, M_bind.
  by destruct (mkdir_parents (parent dst) w) as [w1 [[]|e]].
Qed.

(** A destination that exists has its parents already: making them changes
    nothing, and without [overwrite] the collision is raised on the world
    as it was. *)
Lemma clear_destination_collision dst w :
  exists_ (fs w) dst = true →
  clear_destination dst false w = (w, Raise FileExistsError).
Proof.
  intros He. unfold clear_destination, mkdir_parents, exists_m, reading, raise.
  unfold mbind, M_bind. unfold exists_ in He.
  destruct (resolve (fs w) dst) as [n|] eqn:Hn; [|done].
  destruct dst as [|c dst].
  - destruct w as [[|es] b o e]; by cbn in *.
  - destruct (resolve_parent _ _ _ Hn) as [es Hp]; [done|].
    rewrite (mkdir_p_resolved _ _ _ Hp), set_fs_id. unfold exists_.
    by rewrite Hn.
Qed.

Lemma remove_existing_removes dst w :
  exists_ (fs w) dst = true → dst ≠ [] →
  remove_existing dst w = (set_fs (remove (fs w) dst) w, Ok tt).
Proof.
  intros He Hne. unfold remove_existing, is_dir_m, reading, mbind, M_bind.
  unfold exists_ in He. unfold is_dir, rmtree, unlink.
  destruct (resolve (fs w) dst) as [[|es]|] eqn:Hn; [| |done];
    rewrite Hn; by destruct dst.
Qed.


Lemma safe_move_collision src dst w :
  exists_ (fs w) dst = true →
  safe_move src dst false w = (w, Raise FileExistsError).
Proof.
  intros He. rewrite safe_move_clear.
  by apply bind_Raise, clear_destination_collision.
Qed.

Lemma safe_copy_collision src dst w :
  exists_ (fs w) dst = true →
  safe_copy src dst false w = (w, Raise FileExistsError).
Proof.
  intros He. rewrite safe_copy_clear.
  by apply bind_Raise, clear_destination_collision.
Qed.



Example collision_item_is_planned :
  plan_mcgcp_to_gcmce collision_tree ["sd"] ["sd"]
    DEFAULT_REGION3_FROM_LETTER false = Ok [collision_item].
Proof. vm_compute. reflexivity. Qed.

(** With force the old save is replaced by the moved one, and the emptied
    source directory goes. *)
Example forced_move_replaces_destination :
  let r := execute_plan [collision_item] true false false collision_world in
  r.2 = Ok tt
  ∧ resolve (fs r.1) (dst_file collision_item) = Ok (File "new")
  ∧ exists_ (fs r.1) (src_dir collision_item) = false.
Proof. vm_compute. done. Qed.

Lemma mkdir_parents_chain p w w1 q :
  mkdir_parents p w = (w1, Ok tt) → q `prefix_of` p → is_dir (fs w1) q = true.
Proof.
  unfold mkdir_parents. destruct (mkdir_p (fs w) p) as [t|] eqn:Ht; [|done].
  intros [= <-] Hq. cbn. by apply (mkdir_p_chain _ _ _ _ Ht).
Qed.

(** The parents are made first whatever happens next: a move whose source
    is missing fails, and the directories made for it stay. *)
Example parents_survive_failed_move :
  let r := safe_move ["sd"; "nowhere"] ["out"; "MemoryCards"; "x.raw"] false
             collision_world in
  r.2 = Raise FileNotFoundError
  ∧ is_dir (fs collision_world) ["out"; "MemoryCards"] = false
  ∧ is_dir (fs r.1) ["out"; "MemoryCards"] = true.
Proof. vm_compute. done. Qed.

(** ** What leaves the filesystem alone *)

Lemma fs_preserving_ret {A} (a : A) : fs_preserving (mret a).
Proof. by intros w. Qed.

Lemma fs_preserving_raise {A} e : fs_preserving (raise (A:=A) e).
Proof. by intros w. Qed.

Lemma fs_preserving_reading {A} (f : node → result A) :
  fs_preserving (reading f).
Proof. by intros w. Qed.

Lemma fs_preserving_print s : fs_preserving (print s).
Proof. by intros w. Qed.

Lemma fs_preserving_eprint s : fs_preserving (eprint s).
Proof. by intros w. Qed.

Lemma fs_preserving_bind {A B} (m : M A) (f : A → M B) :
  fs_preserving m → (∀ a, fs_preserving (f a)) → fs_preserving (m ≫= f).
Proof.
  intros Hm Hf w. unfold mbind, M_bind. specialize (Hm w).
  destruct (m w) as [w1 [a|e]]; cbn in *; [|done].
  by rewrite Hf.
Qed.

Create HintDb fs_frame.
#[local] Hint Resolve fs_preserving_ret fs_preserving_raise
  fs_preserving_reading fs_preserving_print fs_preserving_eprint : fs_frame.

Ltac fs_frame :=
  repeat first
    [ solve [auto with fs_frame]
    | apply fs_preserving_bind; [|intros ?] ].

Lemma fs_preserving_log msg verbose : fs_preserving (log msg verbose).
Proof. destruct verbose; cbn; auto with fs_frame. Qed.

Lemma fs_preserving_print_plan plan : fs_preserving (print_plan plan).
Proof.
  unfold print_plan. fs_frame.
  induction plan as [|p plan IH]; cbn; fs_frame.
Qed.

Lemma fs_preserving_load_region_map json_load file :
  fs_preserving (load_region_map json_load file).
Proof. destruct file; cbn; unfold read_text; fs_frame. Qed.

(** In a dry run [execute_plan] only prints. *)
Lemma execute_plan_dry_run plan overwrite verbose :
  fs_preserving (execute_plan plan overwrite true verbose).
Proof. induction plan as [|p plan IH]; cbn; fs_frame. Qed.

(** In a dry run [do_backup] only prints. *)
Lemma do_backup_dry_run sd_root backup_dir overwrite :
  fs_preserving (do_backup sd_root backup_dir overwrite true).
Proof. unfold do_backup. fs_frame. Qed.

#[local] Hint Resolve fs_preserving_log fs_preserving_print_plan
  fs_preserving_load_region_map execute_plan_dry_run do_backup_dry_run
  : fs_frame.

(** A dry run without a backup directory does not touch the disk. *)
Lemma main_dry_run_without_backup json_load args :
  arg_dry_run args = true → arg_backup_dir args = None →
  fs_preserving (main json_load args).
Proof.
  intros Hdry Hbk. unfold main. rewrite Hdry, Hbk. unfold exists_m.
  apply fs_preserving_bind; [fs_frame|]. intros found.
  destruct (negb found); [fs_frame|].
  apply fs_preserving_bind; [fs_frame|]. intros [l2r r2l].
  apply fs_preserving_bind; [fs_frame|]. intros _.
  apply fs_preserving_bind; [fs_frame|]. intros [|p plan]; [fs_frame|].
  apply fs_preserving_bind; [fs_frame|]. intros _.
  apply fs_preserving_bind; [destruct (arg_verbose args); fs_frame|].
  intros _. fs_frame.
Qed.

(** C1 fails on the code: [main] makes the backup directory before it
    hands over to [do_backup], dry run or not.  Here a dry run is given a
    backup directory that does not exist; the run ends with exit code 0 and
    the directory on disk. *)
Theorem main_dry_run_makes_backup_dir :
  let r := main no_json dry_run_args dry_run_world in
  arg_dry_run dry_run_args = true
  ∧ r.2 = Ok 0%Z
  ∧ exists_ (fs dry_run_world) ["backup"] = false
  ∧ is_dir (fs r.1) ["backup"] = true
  ∧ fs r.1 ≠ fs dry_run_world.
Proof.
  cbv zeta. split; [done|]. split; [vm_compute; done|].
  split; [vm_compute; done|]. split; [vm_compute; done|].
  intros H. apply (f_equal (λ t, is_dir t ["backup"])) in H.
  vm_compute in H. discriminate.
Qed.

(** ** Exit codes *)

Lemma main_found_Ok_0 json_load args w w' code :
  exists_ (fs w) (arg_sd_root args ++ ["MemoryCards"]) = true →
  main json_load args w = (w', Ok code) → code = 0%Z.
Proof.
  intros Hfound. unfold main, exists_m.
  rewrite (bind_Ok _ _ w w true) by (unfold reading; by rewrite Hfound).
  cbn [negb]. intros H.
  apply bind_inv_Ok in H as (w1 & [l2r r2l] & _ & H).
  apply bind_inv_Ok in H as (w2 & [] & _ & H).
  apply bind_inv_Ok in H as (w3 & plan & _ & H).
  destruct plan as [|p plan].
  - apply bind_inv_Ok in H as (w4 & [] & _ & H). by injection H as _ <-.
  - apply bind_inv_Ok in H as (w4 & [] & _ & H).
    apply bind_inv_Ok in H as (w5 & [] & _ & H).
    apply bind_inv_Ok in H as (w6 & [] & _ & H).
    apply bind_inv_Ok in H as (w7 & [] & _ & H). by injection H as _ <-.
Qed.

Lemma main_not_found json_load args w :
  exists_ (fs w) (arg_sd_root args ++ ["MemoryCards"]) = false →
  main json_load args w
  = (World (fs w) (busy w) (stdout w)
       (stderr w ++ ["ERROR: " +:+ path_str (arg_sd_root args)
                     +:+ "/MemoryCards not found"]),
     Ok 1%Z).
Proof.
  intros Hfound. unfold main, exists_m.
  rewrite (bind_Ok _ _ w w false) by (unfold reading; by rewrite Hfound).
  reflexivity.
Qed.

(** C8: [main] returns 1 when {sd-root}/MemoryCards is missing, and only
    then; when the directory is there, every run that returns at all
    returns 0, and a run that finds nothing to convert does return 0 after
    saying so. *)
Theorem main_exit_code (json_load : string → result region_override)
    (args : Args) (w : world) :
  let sd_root := arg_sd_root args in
  let found := exists_ (fs w) (sd_root ++ ["MemoryCards"]) in
  (found = false →
     ∃ w', main json_load args w = (w', Ok 1%Z) ∧ fs w' = fs w)
  ∧ (∀ w' code, main json_load args w = (w', Ok code) →
       (code = 1%Z ↔ found = false) ∧ (found = true → code = 0%Z))
  ∧ (found = true →
     arg_region_map_json args = None → arg_backup_dir args = None →
     build_plan args sd_root (default sd_root (arg_output_sd_root args))
       DEFAULT_REGION3_FROM_LETTER DEFAULT_LETTER_FROM_REGION3
       (negb (bool_decide
                (default sd_root (arg_output_sd_root args) = sd_root)))
       (fs w) = Ok [] →
     main json_load args w
     = (World (fs w) (busy w)
          (stdout w
           ++ ["No convertible entries found. Check source layout and flags."])
          (stderr w),
        Ok 0%Z)).
Proof.
  cbv zeta. split; [|split].
  - intros Hf. eexists. split; [by apply main_not_found|done].
  - intros w' code H.
    destruct (exists_ (fs w) (arg_sd_root args ++ ["MemoryCards"]))
      eqn:Hfound.
    + pose proof (main_found_Ok_0 _ _ _ _ _ Hfound H) as ->. by split.
    + rewrite main_not_found in H by done. injection H as _ <-. by split.
  - intros Hf Hjson Hbk Hplan. unfold main, exists_m.
    rewrite (bind_Ok _ _ w w true) by (unfold reading; by rewrite Hf).
    cbn [negb]. rewrite Hjson, Hbk. cbn [load_region_map].
    unfold reading, mbind, M_bind, mret, M_ret.
    by rewrite Hplan.
Qed.

Lemma main_exit_code_witness :
  (∃ w', main no_json plain_args blank_world = (w', Ok 1%Z)
         ∧ fs w' = fs blank_world)
  ∧ main no_json plain_args empty_card_world
    = (World (fs empty_card_world) []
         ["No convertible entries found. Check source layout and flags."] [],
       Ok 0%Z).
Proof.
  split.
  - apply (main_exit_code no_json plain_args blank_world). reflexivity.
  - apply (main_exit_code no_json plain_args empty_card_world); reflexivity.
Defined.

(** ** Frame properties of the tree operations *)

(** Two paths neither of which lies on the way to the other. *)
Lemma remove_unrelated t p q :
  ¬ p `prefix_of` q → ¬ q `prefix_of` p →
  resolve (remove t p) q = resolve t q.
Proof.
  revert t q. induction p as [|c p IH]; intros t q Hpq Hqp.
  - destruct Hpq. apply prefix_nil.
  - destruct q as [|c' q]; [destruct Hqp; apply prefix_nil|].
    destruct t as [|es]; [by destruct p|].
    destruct (decide (c = c')) as [<-|Hc].
    + assert (¬ p `prefix_of` q) by (intros ?; by apply Hpq, prefix_cons).
      assert (¬ q `prefix_of` p) by (intros ?; by apply Hqp, prefix_cons).
      destruct p as [|c1 p]; [destruct H; apply prefix_nil|].
      cbn [remove]. destruct (es !! c) as [t'|] eqn:Ht; [|done].
      cbn [resolve]. rewrite lookup_insert_eq, Ht. by apply IH.
    + destruct p as [|c1 p]; cbn [remove].
      * cbn. by rewrite lookup_delete_ne.
      * destruct (es !! c) as [t'|] eqn:Ht; [|done].
        cbn [resolve]. by rewrite lookup_insert_ne.
Qed.

Lemma exists_remove_below t p q :
  p ≠ [] → p `prefix_of` q → exists_ (remove t p) q = false.
Proof.
  intros Hne [k ->]. pose proof (exists_remove t p Hne) as H.
  unfold exists_ in *. rewrite resolve_app.
  by destruct (resolve (remove t p) p).
Qed.

(** Removing an entry leaves the directories that are not below it. *)
Lemma remove_keeps_dir t p q :
  is_dir t q = true → ¬ p `prefix_of` q → is_dir (remove t p) q = true.
Proof.
  unfold is_dir. revert t q. induction p as [|c p IH]; intros t q Hq Hpq.
  - destruct Hpq. apply prefix_nil.
  - destruct t as [|es]; [by destruct p|].
    destruct q as [|c' q]; [by destruct p; cbn; try destruct (es !! c)|].
    cbn [resolve] in Hq. destruct (es !! c') as [tq|] eqn:Htq; [|done].
    destruct (decide (c = c')) as [<-|Hc].
    + assert (¬ p `prefix_of` q) by (intros ?; by apply Hpq, prefix_cons).
      destruct p as [|c1 p]; [destruct H; apply prefix_nil|].
      cbn [remove]. rewrite Htq. cbn [resolve]. rewrite lookup_insert_eq.
      by apply IH.
    + destruct p as [|c1 p]; cbn [remove].
      * cbn [resolve]. by rewrite lookup_delete_ne, Htq.
      * destruct (es !! c) as [t'|] eqn:Ht; cbn [resolve].
        -- by rewrite lookup_insert_ne, Htq.
        -- by rewrite Htq.
Qed.

Lemma remove_cons_cons es c c1 k :
  remove (Dir es) (c :: c1 :: k)
  = match es !! c with
    | Some t' => Dir (<[c := remove t' (c1 :: k)]> es)
    | None => Dir es
    end.
Proof. done. Qed.

(** Removing the child [n] of the directory [d]. *)
Lemma remove_child t d n es :
  resolve t d = Ok (Dir es) →
  resolve (remove t (d ++ [n])) d = Ok (Dir (delete n es)).
Proof.
  revert t. induction d as [|c d IH]; intros t H.
  - cbn in H. by simplify_eq.
  - cbn [resolve] in H. destruct t as [|es0]; [done|].
    destruct (es0 !! c) as [t1|] eqn:Ht; [|done].
    change ((c :: d) ++ [n]) with (c :: (d ++ [n])).
    destruct (d ++ [n]) as [|c1 k] eqn:Hk; [by destruct d|].
    rewrite remove_cons_cons, Ht. cbn [resolve]. rewrite lookup_insert_eq.
    by apply IH.
Qed.

Lemma put_unrelated t p q new :
  ¬ p `prefix_of` q → ¬ q `prefix_of` p →
  resolve (put t p new) q = resolve t q.
Proof.
  revert t q. induction p as [|c p IH]; intros t q Hpq Hqp.
  - destruct Hpq. apply prefix_nil.
  - destruct q as [|c' q]; [destruct Hqp; apply prefix_nil|].
    destruct t as [|es]; [done|]. cbn [put resolve].
    destruct (decide (c = c')) as [<-|Hc].
    + assert (¬ p `prefix_of` q) by (intros ?; by apply Hpq, prefix_cons).
      assert (¬ q `prefix_of` p) by (intros ?; by apply Hqp, prefix_cons).
      rewrite lookup_insert_eq, IH by done.
      destruct (es !! c); [done|]. cbn.
      destruct q as [|c2 q]; [destruct H0; apply prefix_nil|]. done.
    + by rewrite lookup_insert_ne.
Qed.

Lemma put_resolve t p new :
  is_dir t (parent p) = true → resolve (put t p new) p = Ok new.
Proof.
  unfold is_dir, parent. revert t. induction p as [|c p IH]; intros t H; [done|].
  destruct t as [|es]; [by destruct p|]. cbn [put resolve].
  rewrite lookup_insert_eq. destruct p as [|c1 p]; [done|].
  apply IH. cbn [removelast resolve] in H.
  by destruct (es !! c).
Qed.

(** [mkdir_p] leaves what is not on its way. *)
Lemma mkdir_p_frame t p t' q n :
  mkdir_p t p = Ok t' → ¬ q `prefix_of` p →
  resolve t q = Ok n → resolve t' q = Ok n.
Proof.
  revert t t' q. induction p as [|c p IH]; intros t t' q H Hq Hn.
  - cbn in H. destruct t; by simplify_eq.
  - cbn in H. destruct t as [|es]; [done|].
    destruct (mkdir_p _ p) as [r|] eqn:Hr; [|done]. simplify_eq.
    destruct q as [|c' q]; [destruct Hq; apply prefix_nil|].
    cbn [resolve] in *. destruct (decide (c = c')) as [<-|Hc].
    + rewrite lookup_insert_eq. destruct (es !! c) as [t0|]; [|done].
      apply (IH _ _ _ Hr); [|done]. intros ?. by apply Hq, prefix_cons.
    + by rewrite lookup_insert_ne.
Qed.

(** A directory on the way to an existing entry is not empty. *)
Lemma resolve_above t p c k n :
  resolve t (p ++ c :: k) = Ok n →
  ∃ es, resolve t p = Ok (Dir es) ∧ is_empty_dir es = false.
Proof.
  rewrite resolve_app. destruct (resolve t p) as [[|es]|]; [done| |done].
  cbn. destruct (es !! c) eqn:Hc; [|done]. intros _. exists es. split; [done|].
  unfold is_empty_dir. destruct (map_to_list es) eqn:Hl; [|done].
  apply map_to_list_empty_iff in Hl. subst. by rewrite lookup_empty in Hc.
Qed.

Lemma rmdir_Raise p w w' e :
  rmdir p w = (w', Raise e) → w' = w ∧ is_OSError e = true.
Proof.
  unfold rmdir. destruct (resolve (fs w) p) as [[|es]|e'] eqn:Hp.
  - by intros [= <- <-].
  - destruct (_ || _); [by intros [= <- <-]|done].
  - intros [= <- <-]. split; [done|].
    clear -Hp. revert Hp. generalize (fs w). induction p as [|c p IH];
      intros t; cbn; [done|].
    destruct t as [|es]; [by intros [= <-]|].
    destruct (es !! c); [apply IH|by intros [= <-]].
Qed.

(** ** Moving a file *)

Lemma parent_prefix (p : path) : parent p `prefix_of` p.
Proof.
  destruct p as [|c p _] using rev_ind; [done|].
  rewrite parent_snoc. by apply prefix_app_r.
Qed.

Lemma clear_destination_Ok dst overwrite w w0 :
  clear_destination dst overwrite w = (w0, Ok tt) →
  busy w0 = busy w
  ∧ ∃ ta, mkdir_p (fs w) (parent dst) = Ok ta
          ∧ (fs w0 = ta
             ∨ (dst ≠ [] ∧ exists_ ta dst = true ∧ fs w0 = remove ta dst)).
Proof.
  unfold clear_destination, mkdir_parents, exists_m, reading, mbind, M_bind.
  destruct (mkdir_p (fs w) (parent dst)) as [ta|] eqn:Hta; [|done].
  unfold set_fs. cbn [fs].
  destruct (exists_ ta dst) eqn:He.
  - destruct overwrite; [|done].
    unfold remove_existing, is_dir_m, reading, mbind, M_bind, rmtree, unlink.
    unfold is_dir, set_fs. cbn [fs busy stdout stderr]. intros H.
    assert (Hres : dst ≠ [] ∧ w0 = World (remove ta dst) (busy w) (stdout w)
                                     (stderr w)).
    { unfold exists_ in He.
      destruct (resolve ta dst) as [[|es]|] eqn:Hr;
        cbv beta iota zeta delta [fs] in H; rewrite ?Hr in H;
        destruct dst; by simplify_eq. }
    destruct Hres as [Hne ->]. split; [done|]. exists ta. split; [done|].
    by right.
  - intros [= <-]. split; [done|]. exists ta. split; [done|]. by left.
Qed.

Lemma replace_Ok src dst w w1 :
  replace src dst w = (w1, Ok tt) → src ≠ dst →
  ∃ s, resolve (fs w) src = Ok s
       ∧ ¬ src `prefix_of` dst
       ∧ is_dir (fs w) (parent dst) = true
       ∧ (∀ es, resolve (fs w) dst = Ok (Dir es) → is_empty_dir es = true)
       ∧ w1 = set_fs (put (remove (fs w) src) dst s) w.
Proof.
  unfold replace, is_dir. intros H Hne.
  destruct (resolve (fs w) src) as [s|]; [|done].
  rewrite bool_decide_eq_false_2 in H by done.
  destruct (bool_decide (src `prefix_of` dst)) eqn:Hpre; [done|].
  apply bool_decide_eq_false in Hpre.
  destruct (resolve (fs w) (parent dst)) as [[|esp]|]; [done| |done].
  exists s. split; [done|]. split; [done|]. split; [done|].
  destruct (resolve (fs w) dst) as [[|esd]|]; destruct s as [|ess];
    try done; try (by simplify_eq).
  - destruct (is_empty_dir esd) eqn:Hem; [|done].
    split; [by intros ? [= <-]|]. by simplify_eq.
Qed.

(** A successful [safe_move] out of a directory that held only the moved
    entry leaves that directory empty and the entry at the destination. *)
Lemma safe_move_only_entry d n s dst overwrite w w1 :
  resolve (fs w) d = Ok (Dir {[n := s]}) →
  ¬ d `prefix_of` dst →
  safe_move (d ++ [n]) dst overwrite w = (w1, Ok tt) →
  resolve (fs w1) d = Ok (Dir ∅)
  ∧ resolve (fs w1) dst = Ok s
  ∧ busy w1 = busy w
  ∧ ¬ dst `prefix_of` d.
Proof.
  intros Hd Hpre Hmove. rewrite safe_move_clear in Hmove.
  apply bind_inv_Ok in Hmove as (w0 & [] & Hclear & Hrep).
  apply clear_destination_Ok in Hclear as (Hbusy & ta & Hta & Hw0).
  assert (Hne : d ++ [n] ≠ dst).
  { intros <-. apply Hpre. by apply prefix_app_r. }
  assert (Hda : resolve ta d = Ok (Dir {[n := s]})).
  { apply (mkdir_p_frame _ _ _ _ _ Hta); [|done].
    intros H. apply Hpre. etrans; [done|apply parent_prefix]. }
  assert (Hd0 : resolve (fs w0) d = Ok (Dir {[n := s]})).
  { destruct Hw0 as [->|(Hdst & He & Hw0)]; [done|]. rewrite Hw0.
    destruct (decide (dst `prefix_of` d)) as [Hdd|Hdd].
    - exfalso. unfold replace in Hrep.
      assert (Hgone : exists_ (fs w0) (d ++ [n]) = false).
      { rewrite Hw0. apply exists_remove_below; [done|].
        by apply prefix_app_r. }
      unfold exists_ in Hgone.
      by destruct (resolve (fs w0) (d ++ [n])).
    - by rewrite remove_unrelated. }
  apply replace_Ok in Hrep as (s' & Hs' & Hsd & Hpar & Hempty & ->); [|done].
  rewrite (resolve_app_Ok _ _ _ _ Hd0), resolve_singleton in Hs'.
  cbn in Hs'. simplify_eq. cbn [fs set_fs busy].
  assert (Hdd : ¬ dst `prefix_of` d).
  { intros [k ->].
    assert (Hsrc : resolve (fs w0) ((dst ++ k) ++ [n]) = Ok s').
    { by rewrite (resolve_app_Ok _ _ _ _ Hd0), resolve_singleton. }
    destruct (k ++ [n]) as [|c k'] eqn:Hk; [by destruct k|].
    rewrite <- app_assoc, Hk in Hsrc.
    apply resolve_above in Hsrc as (es & Hes & Hnonempty).
    by rewrite (Hempty _ Hes) in Hnonempty. }
  split; [|split; [|done]].
  - rewrite put_unrelated by done.
    rewrite (remove_child _ _ _ _ Hd0). by rewrite delete_singleton_eq.
  - apply put_resolve, remove_keeps_dir; [done|].
    intros H. apply Hsd. etrans; [done|apply parent_prefix].
Qed.

Lemma listing_empty : listing ∅ = [].
Proof. unfold listing. by rewrite map_to_list_empty. Qed.

Lemma listing_nonempty es : es ≠ ∅ → ∃ c l, listing es = c :: l.
Proof.
  intros Hne. unfold listing. destruct (map_to_list es) as [|[c n] l] eqn:Hl.
  - by apply map_to_list_empty_iff in Hl.
  - by exists c, (l.*1).
Qed.

Lemma log_Ok msg verbose w : ∃ w', log msg verbose w = (w', Ok tt) ∧ fs w' = fs w.
Proof. destruct verbose; eexists; (split; [reflexivity|done]). Qed.

(** What [execute_item] does with a move once [safe_move] has succeeded:
    it goes on to the clean-up of the source directory and to the log
    line. *)
Lemma execute_item_move p overwrite verbose w w1 :
  action p = "move" →
  safe_move (src_file p) (dst_file p) overwrite w = (w1, Ok tt) →
  execute_item p overwrite false verbose w
  = (remove_if_empty (src_dir p) ;;
     log ("OK: " +:+ action p +:+ " " +:+ path_str (src_file p) +:+ " -> "
          +:+ path_str (dst_file p)) verbose) w1.
Proof.
  intros Hact Hmove. unfold execute_item. rewrite Hact.
  change (("move" =? "move")%string) with true. cbv iota.
  unfold mbind, M_bind. by rewrite Hmove.
Qed.

(** C5: a move whose [safe_move] succeeds is followed by the clean-up of
    the source directory.  If that directory held only the moved entry
    (and the destination is not inside it, and the OS lets it go), the
    entry is at the destination and the directory is deleted.  If after
    the move the directory is not empty, or [rmdir] fails, nothing is
    removed and no error is raised.  In each case execution goes on with
    the rest of the plan. *)
Theorem execute_move_cleans_source_dir (p : PlanItem) (rest : list PlanItem)
    (overwrite verbose : bool) (w w1 : world) :
  action p = "move" →
  safe_move (src_file p) (dst_file p) overwrite w = (w1, Ok tt) →
  (∀ n s,
     resolve (fs w) (src_dir p) = Ok (Dir {[n := s]}) →
     src_file p = src_dir p ++ [n] →
     ¬ src_dir p `prefix_of` dst_file p →
     src_dir p ∉ busy w →
     ∃ w2,
       execute_item p overwrite false verbose w = (w2, Ok tt)
       ∧ resolve (fs w1) (src_dir p) = Ok (Dir ∅)
       ∧ fs w2 = remove (fs w1) (src_dir p)
       ∧ exists_ (fs w2) (src_dir p) = false
       ∧ resolve (fs w2) (dst_file p) = Ok s)
  ∧ (∀ es,
       resolve (fs w1) (src_dir p) = Ok (Dir es) →
       es ≠ ∅ ∨ (∃ w' e, rmdir (src_dir p) w1 = (w', Raise e)) →
       ∃ w2,
         execute_item p overwrite false verbose w = (w2, Ok tt)
         ∧ fs w2 = fs w1)
  ∧ (∀ w2,
       execute_item p overwrite false verbose w = (w2, Ok tt) →
       execute_plan (p :: rest) overwrite false verbose w
       = execute_plan rest overwrite false verbose w2).
Proof.
  intros Hact Hmove. rewrite (execute_item_move _ _ _ _ _ Hact Hmove).
  split; [|split].
  - intros n s Hd Hsrc Hpre Hbusy. rewrite Hsrc in Hmove.
    destruct (safe_move_only_entry _ _ _ _ _ _ _ Hd Hpre Hmove)
      as (Hd1 & Hdst1 & Hb1 & Hdd).
    assert (Hne : src_dir p ≠ []).
    { intros H. apply Hpre. rewrite H. apply prefix_nil. }
    assert (Hrm : remove_if_empty (src_dir p) w1
                  = (set_fs (remove (fs w1) (src_dir p)) w1, Ok tt)).
    { unfold remove_if_empty, iterdir_m, reading, iterdir, mbind, M_bind.
      rewrite Hd1, listing_empty. cbn [fmap list_fmap].
      unfold except_OSError_pass, rmdir. rewrite Hd1, Hb1.
      rewrite (bool_decide_eq_false_2 (src_dir p = [])) by done.
      by rewrite (bool_decide_eq_false_2 (src_dir p ∈ busy w)) by done. }
    rewrite (bind_Ok _ _ _ _ _ Hrm).
    destruct (log_Ok ("OK: " +:+ action p +:+ " " +:+ path_str (src_file p)
                      +:+ " -> " +:+ path_str (dst_file p)) verbose
                (set_fs (remove (fs w1) (src_dir p)) w1)) as (w2 & Hlog & Hfs).
    exists w2. rewrite Hlog, Hfs. cbn [fs set_fs].
    split; [done|]. split; [done|]. split; [done|].
    split; [by apply exists_remove|].
    by rewrite remove_unrelated.
  - intros es Hd1 Hcase.
    assert (Hrm : remove_if_empty (src_dir p) w1 = (w1, Ok tt)).
    { unfold remove_if_empty, iterdir_m, reading, iterdir, mbind, M_bind.
      rewrite Hd1. destruct (decide (es = ∅)) as [->|Hes].
      - rewrite listing_empty. cbn [fmap list_fmap].
        destruct Hcase as [?|(w' & e & Hfail)]; [done|].
        unfold except_OSError_pass. rewrite Hfail.
        apply rmdir_Raise in Hfail as [-> ->]. done.
      - destruct (listing_nonempty es Hes) as (c & l & ->). done. }
    rewrite (bind_Ok _ _ _ _ _ Hrm). apply log_Ok.
  - intros w2 Hitem. rewrite <- (execute_item_move _ _ _ _ _ Hact Hmove) in Hitem.
    cbn [execute_plan]. exact (bind_Ok _ _ _ _ _ Hitem).
Qed.

Lemma execute_move_cleans_source_dir_witness :
  action move_item = "move"
  ∧ safe_move (src_file move_item) (dst_file move_item) false move_world
    = (moved_world, Ok tt)
  ∧ ∃ w2,
      execute_item move_item false false false move_world = (w2, Ok tt)
      ∧ resolve (fs moved_world) (src_dir move_item) = Ok (Dir ∅)
      ∧ fs w2 = remove (fs moved_world) (src_dir move_item)
      ∧ exists_ (fs w2) (src_dir move_item) = false
      ∧ resolve (fs w2) (dst_file move_item) = Ok (File "save").
Proof.
  assert (Hmove : safe_move (src_file move_item) (dst_file move_item) false
                    move_world = (moved_world, Ok tt))
    by (vm_compute; reflexivity).
  split; [reflexivity|]. split; [exact Hmove|].
  destruct (execute_move_cleans_source_dir move_item [] false false
              move_world moved_world eq_refl Hmove) as (Hclean & _ & _).
  apply (Hclean "GAFE0100-1.raw" (File "save"));
    [vm_compute; reflexivity | reflexivity | decide_closed | decide_closed].
Defined.

(** The directory stays, and nothing is raised, when the OS refuses to
    remove it ... *)
Example busy_source_dir_stays :
  let r := execute_plan [move_item] false false false busy_world in
  r.2 = Ok tt
  ∧ resolve (fs r.1) (src_dir move_item) = Ok (Dir ∅)
  ∧ resolve (fs r.1) (dst_file move_item) = Ok (File "save").
Proof. vm_compute. done. Qed.

(** ... and when another save is still in it. *)
Example shared_source_dir_stays :
  let r := execute_plan [collision_item] true false false
             (World (put collision_tree
                       ["sd"; "MemoryCards"; "GAFE0100"; "GAFE0100-2.raw"]
                       (File "slot 2")) [] [] []) in
  r.2 = Ok tt
  ∧ resolve (fs r.1) (src_dir collision_item)
    = Ok (Dir {[ "GAFE0100-2.raw" := File "slot 2" ]})
  ∧ resolve (fs r.1) (dst_file collision_item) = Ok (File "new").
Proof. vm_compute. done. Qed.

(** ** The items the planners make for a move in place *)

Lemma scan_mcgcp_child t dir entries d f g :
  scan_mcgcp t dir = Ok entries → (d, f, g) ∈ entries →
  ∃ c, d = dir ++ [c].
Proof.
  unfold scan_mcgcp, iterdir. destruct (negb _).
  - intros [= <-] H. by apply elem_of_nil in H.
  - destruct (resolve t dir) as [[|es]|]; [done| |done]. cbn.
    intros [= <-] H. apply list_elem_of_omap in H as (entry & Hin & H).
    apply scan_mcgcp_entry_Some in H as (-> & _).
    apply list_elem_of_fmap in Hin as (c & -> & _). by exists c.
Qed.

Lemma scan_gcmce_child t dir entries d f g r :
  scan_gcmce t dir = Ok entries → (d, f, g, r) ∈ entries →
  ∃ c, d = dir ++ [c].
Proof.
  unfold scan_gcmce, iterdir. destruct (negb _).
  - intros [= <-] H. by apply elem_of_nil in H.
  - destruct (resolve t dir) as [[|es]|]; [done| |done]. cbn.
    intros [= <-] H. apply list_elem_of_omap in H as (entry & Hin & H).
    apply scan_gcmce_entry_Some in H as (-> & _).
    apply list_elem_of_fmap in Hin as (c & -> & _). by exists c.
Qed.

Lemma length_append s1 s2 :
  String.length (s1 +:+ s2) = String.length s1 + String.length s2.
Proof. induction s1 as [|a s1 IH]; simpl; [done|]. by f_equal. Qed.

(** Every item planned for a conversion in place is a move of the save
    file out of its own directory to a place outside that directory: the
    premises of the clean-up theorem hold for it. *)
Lemma planned_moves_leave_source_dir t sd_root l2r r2l plan p :
  plan_mcgcp_to_gcmce t sd_root sd_root l2r false = Ok plan
  ∨ plan_gcmce_to_mcgcp t sd_root sd_root r2l false = Ok plan →
  p ∈ plan →
  action p = "move"
  ∧ src_file p = src_dir p ++ [name (src_dir p) +:+ "-1.raw"]
  ∧ ¬ src_dir p `prefix_of` dst_file p.
Proof.
  intros [Hplan|Hplan] Hin.
  - unfold plan_mcgcp_to_gcmce in Hplan.
    destruct (scan_mcgcp _ _) as [entries|] eqn:Hscan; [|done]. cbn in Hplan.
    apply mapM_result_Ok in Hplan.
    apply list_elem_of_lookup in Hin as [i Hi].
    destruct (Forall2_lookup_r _ _ _ _ _ Hplan Hi) as ([[d f] g] & He & Hp).
    apply list_elem_of_lookup_2 in He.
    destruct (scan_mcgcp_child _ _ _ _ _ _ Hscan He) as [c ->].
    apply (scan_mcgcp_elem _ _ _ _ _ _ Hscan) in He.
    apply scan_mcgcp_entry_Some in He as (_ & -> & Hm & _).
    unfold plan_mcgcp_item in Hp. destruct (Str.last_char g); [|done].
    injection Hp as <-. cbn. split; [done|]. split; [done|].
    rewrite name_snoc in Hm. rewrite <- !app_assoc. cbn.
    intros Hpre%prefix_app_inv. apply prefix_cons_inv_2 in Hpre.
    apply prefix_cons_inv_1 in Hpre. by subst c.
  - unfold plan_gcmce_to_mcgcp in Hplan.
    destruct (scan_gcmce _ _) as [entries|] eqn:Hscan; [|done]. cbn in Hplan.
    injection Hplan as <-.
    apply list_elem_of_fmap in Hin as ([[[d f] g] r] & -> & He).
    destruct (scan_gcmce_child _ _ _ _ _ _ _ Hscan He) as [c ->].
    apply (scan_gcmce_elem _ _ _ _ _ _ _ Hscan) in He.
    apply scan_gcmce_entry_Some in He as (_ & -> & Hm & _).
    cbn. split; [done|]. split; [done|].
    rewrite <- !app_assoc. cbn.
    intros Hpre%prefix_app_inv. apply prefix_cons_inv_2 in Hpre.
    apply prefix_cons_inv_1 in Hpre.
    apply (f_equal String.length) in Hpre. rewrite length_append in Hpre.
    cbn in Hpre. lia.
Qed.



(** ** Parents first *)

Lemma not_prefix_of_parent (p : path) : p ≠ [] → ¬ p `prefix_of` parent p.
Proof.
  destruct p as [|c p _] using rev_ind; [done|]. intros _.
  rewrite parent_snoc. intros H%prefix_length.
  rewrite length_app in H. cbn in H. lia.
Qed.

Lemma replace_Raise src dst w w' e :
  replace src dst w = (w', Raise e) → w' = w.
Proof.
  unfold replace. destruct (resolve (fs w) src) as [s|]; [|by intros [= <-]].
  destruct (bool_decide (src = dst)); [done|].
  destruct (bool_decide (src `prefix_of` dst)); [by intros [= <-]|].
  destruct (resolve (fs w) (parent dst)) as [[|esp]|]; try by intros [= <-].
  destruct (resolve (fs w) dst) as [[|esd]|]; destruct s as [|ess];
    try done; try by intros [= <-].
  destruct (is_empty_dir esd); [done|by intros [= <-]].
Qed.

Lemma copy2_Raise src dst w w' e :
  copy2 src dst w = (w', Raise e) → w' = w.
Proof.
  unfold copy2.
  destruct (resolve (fs w) src) as [[data|es]|]; try by intros [= <-].
  destruct (bool_decide _); [by intros [= <-]|].
  destruct (resolve (fs w) _) as [[|esd]|]; try done; try by intros [= <-].
  destruct (resolve (fs w) _) as [[|esp]|]; try done; by intros [= <-].
Qed.

(** Whatever [clear_destination] does after the parents are made, it
    leaves them in place. *)
Lemma clear_destination_chain dst overwrite w w1 w' r q :
  mkdir_parents (parent dst) w = (w1, Ok tt) →
  clear_destination dst overwrite w = (w', r) →
  q `prefix_of` parent dst → is_dir (fs w') q = true.
Proof.
  intros Hmk Hc Hq. pose proof (mkdir_parents_chain _ _ _ _ Hmk Hq) as Hdir.
  revert Hc. unfold clear_destination, mbind, M_bind. rewrite Hmk.
  unfold exists_m, reading.
  destruct (exists_ (fs w1) dst) eqn:He; [|by intros [= <- _]].
  destruct overwrite; [|by intros [= <- _]].
  destruct dst as [|c dst].
  - apply prefix_nil_inv in Hq as ->.
    unfold remove_existing, is_dir_m, reading, mbind, M_bind, rmtree, unlink.
    unfold is_dir in *. clear Hmk. destruct w1 as [[data|es] b1 o1 e1];
      cbn in *; [done|]. by intros [= <- _].
  - rewrite remove_existing_removes by done. intros H.
    assert (w' = set_fs (remove (fs w1) (c :: dst)) w1) as -> by congruence.
    unfold set_fs. cbn [fs].
    apply remove_keeps_dir; [done|]. intros Hp.
    apply (not_prefix_of_parent (c :: dst)); [done|]. by etrans.
Qed.

(** C10: both [safe_move] and [safe_copy] make the parents of the
    destination before anything else.  If [mkdir] raises, that is what the
    call raises and no collision is looked for.  If it returns, the whole
    chain of parents is on disk from then on, whatever was there before;
    a destination that exists makes the call without force fail with
    FileExistsError in exactly the world [mkdir] left; and however the
    call fails, on the collision or later, the parents stay on disk. *)
Theorem collision_after_parents_made (src dst : path) (overwrite : bool)
    (w w1 : world) :
  (∀ e, mkdir_parents (parent dst) w = (w1, Raise e) →
        safe_move src dst overwrite w = (w1, Raise e)
        ∧ safe_copy src dst overwrite w = (w1, Raise e))
  ∧ (mkdir_parents (parent dst) w = (w1, Ok tt) →
     (∀ q, q `prefix_of` parent dst → is_dir (fs w1) q = true)
     ∧ (exists_ (fs w) dst = true →
          safe_move src dst false w = (w1, Raise FileExistsError)
          ∧ safe_copy src dst false w = (w1, Raise FileExistsError))
     ∧ (∀ w2 e,
          safe_move src dst overwrite w = (w2, Raise e)
          ∨ safe_copy src dst overwrite w = (w2, Raise e) →
          ∀ q, q `prefix_of` parent dst → is_dir (fs w2) q = true)).
Proof.
  split.
  - intros e Hmk. rewrite safe_move_clear, safe_copy_clear.
    assert (Hc : clear_destination dst overwrite w = (w1, Raise e))
      by (unfold clear_destination; by apply bind_Raise).
    by rewrite !(bind_Raise _ _ _ _ _ Hc).
  - intros Hmk. split; [|split].
    + intros q Hq. by apply (mkdir_parents_chain _ _ _ _ Hmk).
    + intros He.
      assert (w1 = w) as ->.
      { revert Hmk. unfold mkdir_parents, exists_ in *.
        destruct (resolve (fs w) dst) as [n|] eqn:Hn; [|done].
        destruct dst as [|c dst].
        - destruct w as [[|es] b o e]; cbn in *; [done|by intros [= <-]].
        - destruct (resolve_parent _ _ _ Hn) as [es Hp]; [done|].
          rewrite (mkdir_p_resolved _ _ _ Hp), set_fs_id. by intros [= <-]. }
      split; [by apply safe_move_collision|by apply safe_copy_collision].
    + intros w2 e Hfail q Hq.
      rewrite safe_move_clear, safe_copy_clear in Hfail.
      unfold mbind, M_bind in Hfail.
      destruct (clear_destination dst overwrite w) as [w0 [[]|e0]] eqn:Hc.
      * pose proof (clear_destination_chain _ _ _ _ _ _ _ Hmk Hc Hq) as Hdir.
        destruct Hfail as [Hfail|Hfail].
        -- by apply replace_Raise in Hfail as ->.
        -- by apply copy2_Raise in Hfail as ->.
      * assert (w2 = w0) as -> by (destruct Hfail; by simplify_eq).
        by apply (clear_destination_chain _ _ _ _ _ _ _ Hmk Hc).
Qed.

Lemma collision_after_parents_made_witness :
  is_dir (fs collision_world) (parent fresh_dst) = false
  ∧ mkdir_parents (parent fresh_dst) collision_world
    = (parents_made_world, Ok tt)
  ∧ safe_move stray_src fresh_dst false collision_world
    = (parents_made_world, Raise FileNotFoundError)
  ∧ (∀ q, q `prefix_of` parent fresh_dst →
          is_dir (fs parents_made_world) q = true)
  ∧ safe_move (src_file collision_item) (dst_file collision_item) false
      collision_world = (collision_world, Raise FileExistsError)
  ∧ safe_copy (src_file collision_item) (dst_file collision_item) false
      collision_world = (collision_world, Raise FileExistsError).
Proof.
  assert (Hmk : mkdir_parents (parent fresh_dst) collision_world
                = (parents_made_world, Ok tt)) by (vm_compute; reflexivity).
  assert (Hfail : safe_move stray_src fresh_dst false collision_world
                  = (parents_made_world, Raise FileNotFoundError))
    by (vm_compute; reflexivity).
  destruct (collision_after_parents_made stray_src fresh_dst false
              collision_world parents_made_world) as [_ Hmade].
  destruct (Hmade Hmk) as (_ & _ & Hstay).
  destruct (collision_after_parents_made (src_file collision_item)
              (dst_file collision_item) false collision_world
              collision_world) as [_ Hcoll].
  destruct Hcoll as (_ & Hraise & _); [vm_compute; reflexivity|].
  split; [vm_compute; reflexivity|]. split; [exact Hmk|].
  split; [exact Hfail|]. split.
  - apply (Hstay parents_made_world FileNotFoundError). by left.
  - apply Hraise. vm_compute. reflexivity.
Defined.

(** * Further properties of the scanners, planners and executor *)

(** ** What the scanners return *)

Lemma elem_of_listing es c : c ∈ listing es ↔ is_Some (es !! c).
Proof.
  unfold listing. rewrite list_elem_of_fmap. split.
  - intros ([c' n] & -> & H). apply elem_of_map_to_list in H. by exists n.
  - intros [n H]. exists (c, n). split; [done|]. by apply elem_of_map_to_list.
Qed.

Lemma is_dir_child t dir es c :
  resolve t dir = Ok (Dir es) → is_dir t (dir ++ [c]) = true → c ∈ listing es.
Proof.
  intros Hd. unfold is_dir. rewrite (resolve_app_Ok _ _ _ _ Hd). cbn.
  intros H. apply elem_of_listing. by destruct (es !! c).
Qed.

Lemma scan_mcgcp_finds t dir es c g :
  resolve t dir = Ok (Dir es) →
  is_dir t (dir ++ [c]) = true →
  RE_MCGCP_DIR_match c = Some g →
  exists_ t ((dir ++ [c]) ++ [c +:+ "-1.raw"]) = true →
  ∃ entries,
    scan_mcgcp t dir = Ok entries
    ∧ (dir ++ [c], (dir ++ [c]) ++ [c +:+ "-1.raw"], g) ∈ entries.
Proof.
  intros Hd Hdir Hm Hex. unfold scan_mcgcp.
  assert (exists_ t dir = true) as -> by (unfold exists_; by rewrite Hd).
  unfold iterdir. rewrite Hd. cbn. eexists. split; [reflexivity|].
  apply list_elem_of_omap. exists (dir ++ [c]). split.
  - apply list_elem_of_fmap. exists c. split; [done|].
    by apply (is_dir_child _ _ _ _ Hd).
  - unfold scan_mcgcp_entry. by rewrite Hdir, name_snoc, Hm, Hex.
Qed.

Lemma scan_gcmce_finds t dir es c g r :
  resolve t dir = Ok (Dir es) →
  is_dir t (dir ++ [c]) = true →
  RE_GCMCE_DIR_match c = Some (g, r) →
  exists_ t ((dir ++ [c]) ++ [c +:+ "-1.raw"]) = true →
  ∃ entries,
    scan_gcmce t dir = Ok entries
    ∧ (dir ++ [c], (dir ++ [c]) ++ [c +:+ "-1.raw"], g, r) ∈ entries.
Proof.
  intros Hd Hdir Hm Hex. unfold scan_gcmce.
  assert (exists_ t dir = true) as -> by (unfold exists_; by rewrite Hd).
  unfold iterdir. rewrite Hd. cbn. eexists. split; [reflexivity|].
  apply list_elem_of_omap. exists (dir ++ [c]). split.
  - apply list_elem_of_fmap. exists c. split; [done|].
    by apply (is_dir_child _ _ _ _ Hd).
  - unfold scan_gcmce_entry. by rewrite Hdir, name_snoc, Hm, Hex.
Qed.

(** X1: [scan_mcgcp] on a directory returns exactly the children that are
    directories, whose name the MCGCP pattern accepts, and that hold the
    save file named after them; each comes with that file and the game ID
    the pattern extracts. *)
Theorem scan_mcgcp_entries (t : node) (dir : path) (es : gmap string node) :
  resolve t dir = Ok (Dir es) →
  ∃ entries,
    scan_mcgcp t dir = Ok entries
    ∧ ∀ d f g,
        (d, f, g) ∈ entries ↔
        ∃ c, d = dir ++ [c]
             ∧ is_dir t d = true
             ∧ RE_MCGCP_DIR_match c = Some g
             ∧ f = d ++ [c +:+ "-1.raw"]
             ∧ exists_ t f = true.
Proof.
  intros Hd. unfold scan_mcgcp.
  assert (exists_ t dir = true) as -> by (unfold exists_; by rewrite Hd).
  unfold iterdir. rewrite Hd. cbn.
  eexists. split; [reflexivity|]. intros d f g.
  rewrite list_elem_of_omap. split.
  - intros (entry & Hin & H).
    apply list_elem_of_fmap in Hin as (c & -> & _).
    apply scan_mcgcp_entry_Some in H as (-> & -> & Hm & Hdir & Hex).
    rewrite name_snoc in *. by exists c.
  - intros (c & -> & Hdir & Hm & -> & Hex). exists (dir ++ [c]). split.
    + apply list_elem_of_fmap. exists c. split; [done|].
      by apply (is_dir_child _ _ _ _ Hd).
    + unfold scan_mcgcp_entry. by rewrite Hdir, name_snoc, Hm, Hex.
Qed.

Lemma scan_mcgcp_entries_witness :
  resolve mcgcp_tree ["sd"; "MemoryCards"]
  = Ok (Dir {[ "GAFE0100" := Dir {[ "GAFE0100-1.raw" := File "gafe" ]};
               "GM4W0100" := Dir {[ "GM4W0100-1.raw" := File "gm4w" ]} ]})
  ∧ ∃ entries,
      scan_mcgcp mcgcp_tree ["sd"; "MemoryCards"] = Ok entries
      ∧ ∀ d f g,
          (d, f, g) ∈ entries ↔
          ∃ c, d = ["sd"; "MemoryCards"] ++ [c]
               ∧ is_dir mcgcp_tree d = true
               ∧ RE_MCGCP_DIR_match c = Some g
               ∧ f = d ++ [c +:+ "-1.raw"]
               ∧ exists_ mcgcp_tree f = true.
Proof.
  split; [vm_compute; reflexivity|].
  apply (scan_mcgcp_entries mcgcp_tree ["sd"; "MemoryCards"]
           {[ "GAFE0100" := Dir {[ "GAFE0100-1.raw" := File "gafe" ]};
              "GM4W0100" := Dir {[ "GM4W0100-1.raw" := File "gm4w" ]} ]}).
  vm_compute. reflexivity.
Defined.

(** X2: [scan_gcmce] on a directory returns exactly the children that are
    directories, whose name the GCMCE pattern accepts, and that hold the
    save file named after them; each comes with that file and the game ID
    and region code the pattern extracts. *)
Theorem scan_gcmce_entries (t : node) (dir : path) (es : gmap string node) :
  resolve t dir = Ok (Dir es) →
  ∃ entries,
    scan_gcmce t dir = Ok entries
    ∧ ∀ d f g r,
        (d, f, g, r) ∈ entries ↔
        ∃ c, d = dir ++ [c]
             ∧ is_dir t d = true
             ∧ RE_GCMCE_DIR_match c = Some (g, r)
             ∧ f = d ++ [c +:+ "-1.raw"]
             ∧ exists_ t f = true.
Proof.
  intros Hd. unfold scan_gcmce.
  assert (exists_ t dir = true) as -> by (unfold exists_; by rewrite Hd).
  unfold iterdir. rewrite Hd. cbn.
  eexists. split; [reflexivity|]. intros d f g r.
  rewrite list_elem_of_omap. split.
  - intros (entry & Hin & H).
    apply list_elem_of_fmap in Hin as (c & -> & _).
    apply scan_gcmce_entry_Some in H as (-> & -> & Hm & Hdir & Hex).
    rewrite name_snoc in *. by exists c.
  - intros (c & -> & Hdir & Hm & -> & Hex). exists (dir ++ [c]). split.
    + apply list_elem_of_fmap. exists c. split; [done|].
      by apply (is_dir_child _ _ _ _ Hd).
    + unfold scan_gcmce_entry. by rewrite Hdir, name_snoc, Hm, Hex.
Qed.

Lemma scan_gcmce_entries_witness :
  resolve gcmce_tree ["sd"; "MemoryCards"; "GC"]
  = Ok (Dir {[
      "DL-DOL-GAFE-USA" := Dir {[ "DL-DOL-GAFE-USA-1.raw" := File "usa" ]};
      "DL-DOL-GAFE-EUR" := Dir {[ "DL-DOL-GAFE-EUR-1.raw" := File "eur" ]} ]})
  ∧ ∃ entries,
      scan_gcmce gcmce_tree ["sd"; "MemoryCards"; "GC"] = Ok entries
      ∧ ∀ d f g r,
          (d, f, g, r) ∈ entries ↔
          ∃ c, d = ["sd"; "MemoryCards"; "GC"] ++ [c]
               ∧ is_dir gcmce_tree d = true
               ∧ RE_GCMCE_DIR_match c = Some (g, r)
               ∧ f = d ++ [c +:+ "-1.raw"]
               ∧ exists_ gcmce_tree f = true.
Proof.
  split; [vm_compute; reflexivity|].
  apply (scan_gcmce_entries gcmce_tree ["sd"; "MemoryCards"; "GC"]
           {[ "DL-DOL-GAFE-USA" :=
                Dir {[ "DL-DOL-GAFE-USA-1.raw" := File "usa" ]};
              "DL-DOL-GAFE-EUR" :=
                Dir {[ "DL-DOL-GAFE-EUR-1.raw" := File "eur" ]} ]}).
  vm_compute. reflexivity.
Defined.

(** X3: where the source root is missing both planners return the empty plan;
    where a regular file sits in its place the directory listing raises
    NotADirectoryError and the planners pass it on. *)
Theorem plan_without_source_root (t : node) (sd_root out_root : path)
    (l2r r2l : gmap string string) (copy_mode : bool) :
  (exists_ t (sd_root ++ ["MemoryCards"]) = false →
     plan_mcgcp_to_gcmce t sd_root out_root l2r copy_mode = Ok [])
  ∧ (exists_ t (sd_root ++ ["MemoryCards"; "GC"]) = false →
       plan_gcmce_to_mcgcp t sd_root out_root r2l copy_mode = Ok [])
  ∧ (∀ data, resolve t (sd_root ++ ["MemoryCards"]) = Ok (File data) →
       plan_mcgcp_to_gcmce t sd_root out_root l2r copy_mode
       = Raise NotADirectoryError)
  ∧ (∀ data, resolve t (sd_root ++ ["MemoryCards"; "GC"]) = Ok (File data) →
       plan_gcmce_to_mcgcp t sd_root out_root r2l copy_mode
       = Raise NotADirectoryError).
Proof.
  unfold plan_mcgcp_to_gcmce, plan_gcmce_to_mcgcp, scan_mcgcp, scan_gcmce.
  unfold iterdir, exists_. repeat split.
  - intros H. by destruct (resolve t _).
  - intros H. by destruct (resolve t _).
  - intros data ->. done.
  - intros data ->. done.
Qed.

Lemma plan_without_source_root_witness :
  plan_gcmce_to_mcgcp example_mcgcp_card ["sd"] ["sd"]
    DEFAULT_LETTER_FROM_REGION3 false = Ok []
  ∧ plan_mcgcp_to_gcmce
      (Dir {[ "sd" := Dir {[ "MemoryCards" := File "not a directory" ]} ]})
      ["sd"] ["sd"] DEFAULT_REGION3_FROM_LETTER false
    = Raise NotADirectoryError.
Proof.
  split.
  - apply (plan_without_source_root example_mcgcp_card ["sd"] ["sd"]
             DEFAULT_REGION3_FROM_LETTER DEFAULT_LETTER_FROM_REGION3 false).
    vm_compute. reflexivity.
  - apply (plan_without_source_root
             (Dir {[ "sd" := Dir {[ "MemoryCards" := File "not a directory" ]} ]})
             ["sd"] ["sd"] DEFAULT_REGION3_FROM_LETTER
             DEFAULT_LETTER_FROM_REGION3 false) with "not a directory".
    vm_compute. reflexivity.
Defined.

(** ** What the planners return *)

Lemma plan_mcgcp_elem_inv t sd_root out_root l2r copy_mode plan p :
  plan_mcgcp_to_gcmce t sd_root out_root l2r copy_mode = Ok plan →
  p ∈ plan →
  ∃ c g,
    RE_MCGCP_DIR_match c = Some g
    ∧ is_dir t ((sd_root ++ ["MemoryCards"]) ++ [c]) = true
    ∧ exists_ t (((sd_root ++ ["MemoryCards"]) ++ [c]) ++ [c +:+ "-1.raw"])
      = true
    ∧ plan_mcgcp_item (out_root ++ ["MemoryCards"; "GC"]) l2r copy_mode
        ((sd_root ++ ["MemoryCards"]) ++ [c],
         ((sd_root ++ ["MemoryCards"]) ++ [c]) ++ [c +:+ "-1.raw"], g)
      = Ok p.
Proof.
  unfold plan_mcgcp_to_gcmce.
  destruct (scan_mcgcp _ _) as [entries|] eqn:Hscan; [|done]. cbn.
  intros Hplan%mapM_result_Ok Hin.
  apply list_elem_of_lookup in Hin as [i Hi].
  destruct (Forall2_lookup_r _ _ _ _ _ Hplan Hi) as ([[d f] g] & He & Hp).
  apply list_elem_of_lookup_2 in He.
  destruct (scan_mcgcp_child _ _ _ _ _ _ Hscan He) as [c ->].
  apply (scan_mcgcp_elem _ _ _ _ _ _ Hscan) in He.
  apply scan_mcgcp_entry_Some in He as (_ & -> & Hm & Hdir & Hex).
  rewrite name_snoc in *. by exists c, g.
Qed.

Lemma plan_gcmce_elem_inv t sd_root out_root r2l copy_mode plan p :
  plan_gcmce_to_mcgcp t sd_root out_root r2l copy_mode = Ok plan →
  p ∈ plan →
  ∃ c g r,
    RE_GCMCE_DIR_match c = Some (g, r)
    ∧ is_dir t ((sd_root ++ ["MemoryCards"; "GC"]) ++ [c]) = true
    ∧ exists_ t (((sd_root ++ ["MemoryCards"; "GC"]) ++ [c])
                 ++ [c +:+ "-1.raw"]) = true
    ∧ p = plan_gcmce_item (out_root ++ ["MemoryCards"]) copy_mode
            ((sd_root ++ ["MemoryCards"; "GC"]) ++ [c],
             ((sd_root ++ ["MemoryCards"; "GC"]) ++ [c]) ++ [c +:+ "-1.raw"],
             g, r).
Proof.
  unfold plan_gcmce_to_mcgcp.
  destruct (scan_gcmce _ _) as [entries|] eqn:Hscan; [|done]. cbn.
  intros [= <-] Hin.
  apply list_elem_of_fmap in Hin as ([[[d f] g] r] & -> & He).
  destruct (scan_gcmce_child _ _ _ _ _ _ _ Hscan He) as [c ->].
  apply (scan_gcmce_elem _ _ _ _ _ _ _ Hscan) in He.
  apply scan_gcmce_entry_Some in He as (_ & -> & Hm & Hdir & Hex).
  rewrite name_snoc in *. by exists c, g, r.
Qed.

(** *** Names as path components *)

Lemma append_String a s t : String a s +:+ t = String a (s +:+ t).
Proof. reflexivity. Qed.

Lemma append_assoc s1 s2 s3 : (s1 +:+ s2) +:+ s3 = s1 +:+ s2 +:+ s3.
Proof.
  induction s1 as [|a s1 IH]; [done|]. by rewrite !append_String, IH.
Qed.

Lemma append_nil_r s : s +:+ "" = s.
Proof. induction s as [|a s IH]; [done|]. by rewrite append_String, IH. Qed.

Lemma all_chars_append f s1 s2 :
  Str.all_chars f (s1 +:+ s2) = Str.all_chars f s1 && Str.all_chars f s2.
Proof.
  induction s1 as [|a s1 IH]; [done|]. rewrite append_String. cbn.
  by rewrite IH, andb_assoc.
Qed.

Lemma all_chars_impl (f g : ascii → bool) s :
  (∀ a, f a = true → g a = true) →
  Str.all_chars f s = true → Str.all_chars g s = true.
Proof.
  intros Hfg. induction s as [|a s IH]; [done|]. cbn.
  intros [Ha Hs]%andb_prop. by rewrite (Hfg _ Ha), IH.
Qed.

Lemma AZ09_not_slash a :
  Str.is_AZ09 a = true → negb (Ascii.eqb a "/"%char) = true.
Proof. destruct a as [[] [] [] [] [] [] [] []]; vm_compute; congruence. Qed.

Lemma split_slash_free s cur :
  slash_free s = true → split_slash s cur = [cur +:+ s].
Proof.
  revert cur. induction s as [|a s IH]; intros cur.
  - intros _. cbn. by rewrite append_nil_r.
  - unfold slash_free. cbn. intros [Ha Hs]%andb_prop.
    apply negb_true_iff in Ha. rewrite Ha, (IH _ Hs).
    by rewrite append_assoc.
Qed.

(** A name without a slash, other than the empty name and the dot, is
    one path component. *)
Lemma path_parts_one s :
  slash_free s = true → s ≠ "" → s ≠ "." → path_parts s = [s].
Proof.
  intros Hs H1 H2. unfold path_parts. rewrite (split_slash_free _ _ Hs).
  change ("" +:+ s) with s. by rewrite filter_cons_True, filter_nil.
Qed.

Lemma long_name_single s :
  slash_free s = true → 3 ≤ String.length s → single_component s.
Proof.
  intros Hs Hlen.
  split; [apply path_parts_one; [done| |]|]; intros ->; cbn in Hlen; lia.
Qed.

Lemma gcmce_name_single g r :
  Str.all_chars Str.is_AZ09 g = true → slash_free r = true →
  let n := "DL-DOL-" +:+ g +:+ "-" +:+ r in
  single_component n ∧ single_component (n +:+ "-1.raw").
Proof.
  intros Hg Hr n.
  assert (Hn : slash_free n = true).
  { unfold n, slash_free in *. rewrite !all_chars_append.
    by rewrite (all_chars_impl _ _ g AZ09_not_slash Hg), Hr. }
  assert (Hlen : 3 ≤ String.length n).
  { unfold n. rewrite length_append. cbn. lia. }
  split; apply long_name_single; try done.
  - unfold slash_free in *. by rewrite all_chars_append, Hn.
  - rewrite length_append. lia.
Qed.

Lemma mcgcp_name_single g :
  Str.all_chars Str.is_AZ09 g = true →
  let n := g +:+ "0100" in
  single_component n ∧ single_component (n +:+ "-1.raw").
Proof.
  intros Hg n.
  assert (Hn : slash_free n = true).
  { unfold n, slash_free. rewrite all_chars_append.
    by rewrite (all_chars_impl _ _ g AZ09_not_slash Hg). }
  assert (Hlen : 3 ≤ String.length n).
  { unfold n. rewrite length_append. cbn. lia. }
  split; apply long_name_single; try done.
  - unfold slash_free in *. by rewrite all_chars_append, Hn.
  - rewrite length_append. lia.
Qed.

Lemma region3_slash_free (l2r : gmap string string) k :
  slash_free_values l2r → slash_free (default "OTH" (l2r !! k)) = true.
Proof.
  intros Hl2r. destruct (l2r !! k) as [v|] eqn:Hv; [by apply (Hl2r _ _ Hv)|].
  done.
Qed.

Lemma RE_GCMCE_DIR_match_AZ09 c g r :
  RE_GCMCE_DIR_match c = Some (g, r) → Str.all_chars Str.is_AZ09 g = true.
Proof.
  unfold RE_GCMCE_DIR_match.
  destruct (String.length _ =? 4); [|done].
  destruct (Str.all_chars Str.is_AZ09 _) eqn:Hall; [|done]. cbn.
  destruct (_ && _); [|done]. by intros [= <- _].
Qed.

Lemma default_slash_free_values :
  slash_free_values DEFAULT_REGION3_FROM_LETTER.
Proof.
  intros k v H. apply elem_of_map_to_list in H.
  vm_compute map_to_list in H.
  repeat (apply elem_of_cons in H as [H|H]); try (by apply elem_of_nil in H);
    by simplify_eq.
Qed.

(** X4: with a letter table whose values hold no slash, every item of a
    plan is well formed: its source directory is a directory found under
    the source root and holds the save file named after it, its
    destination directory is one path component (not the parent's name)
    under the destination root and its destination file one such
    component under that, named after it, and its action is copy exactly
    in copy mode. *)
Theorem planned_items_well_formed (t : node) (sd_root out_root : path)
    (l2r r2l : gmap string string) (copy_mode : bool) (plan : list PlanItem) :
  slash_free_values l2r →
  plan_mcgcp_to_gcmce t sd_root out_root l2r copy_mode = Ok plan
  ∨ plan_gcmce_to_mcgcp t sd_root out_root r2l copy_mode = Ok plan →
  Forall (λ p,
            well_planned t (sd_root ++ ["MemoryCards"])
              (out_root ++ ["MemoryCards"; "GC"]) copy_mode p
            ∨ well_planned t (sd_root ++ ["MemoryCards"; "GC"])
                (out_root ++ ["MemoryCards"]) copy_mode p) plan.
Proof.
  intros Hl2r Hplan. apply Forall_forall. intros p Hin.
  destruct Hplan as [Hplan|Hplan].
  - left.
    destruct (plan_mcgcp_elem_inv _ _ _ _ _ _ _ Hplan Hin)
      as (c & g & Hm & Hdir & Hex & Hp).
    apply RE_MCGCP_DIR_match_Some in Hm as (_ & _ & Hall & _).
    unfold plan_mcgcp_item in Hp.
    destruct (Str.last_char g) as [a|]; [|done]. injection Hp as <-.
    set (r := default "OTH" (l2r !! Str.upper (Str.of_char a))).
    destruct (gcmce_name_single g r Hall (region3_slash_free _ _ Hl2r))
      as [Hp1 Hp2].
    exists c, ("DL-DOL-" +:+ g +:+ "-" +:+ r). cbn.
    split_and!;
      first [done | exact Hp1 | exact Hp2 | by destruct copy_mode].
  - right.
    destruct (plan_gcmce_elem_inv _ _ _ _ _ _ _ Hplan Hin)
      as (c & g & r & Hm & Hdir & Hex & ->).
    destruct (mcgcp_name_single g (RE_GCMCE_DIR_match_AZ09 _ _ _ Hm))
      as [Hp1 Hp2].
    exists c, (g +:+ "0100"). cbn.
    split_and!;
      first [done | exact Hp1 | exact Hp2 | by destruct copy_mode].
Qed.

Lemma planned_items_well_formed_witness :
  Forall (λ p,
            well_planned mcgcp_tree (["sd"] ++ ["MemoryCards"])
              (["out"] ++ ["MemoryCards"; "GC"]) true p
            ∨ well_planned mcgcp_tree (["sd"] ++ ["MemoryCards"; "GC"])
                (["out"] ++ ["MemoryCards"]) true p) mcgcp_plan.
Proof.
  apply (planned_items_well_formed mcgcp_tree ["sd"] ["out"]
           DEFAULT_REGION3_FROM_LETTER DEFAULT_LETTER_FROM_REGION3 true
           mcgcp_plan).
  - apply default_slash_free_values.
  - left. vm_compute. reflexivity.
Defined.

(** Where a table value does hold a slash, the name made from it is no
    single component: joined to a path it names a directory further
    down. *)
Example slash_in_region_code :
  path_parts ("DL-DOL-GAFE-" +:+ "US/A") = ["DL-DOL-GAFE-US"; "A"]
  ∧ path_parts ("DL-DOL-GAFE-" +:+ "A/../DL-DOL-GBBJ-JPN")
    = ["DL-DOL-GAFE-A"; ".."; "DL-DOL-GBBJ-JPN"].
Proof. vm_compute. done. Qed.

(** ** Converting there and back *)


Lemma RE_GCMCE_DIR_match_build g r :
  String.length g = 4 → Str.all_chars Str.is_AZ09 g = true →
  String.length r = 3 → Str.all_chars Str.is_AZ r = true →
  RE_GCMCE_DIR_match ("DL-DOL-" +:+ g +:+ "-" +:+ r) = Some (g, r).
Proof.
  destruct g as [|g0 [|g1 [|g2 [|g3 [|]]]]]; try discriminate.
  destruct r as [|r0 [|r1 [|r2 [|]]]]; try discriminate.
  intros _ Hg _ Hr.
  set (g := String g0 (String g1 (String g2 (String g3 "")))) in *.
  set (r := String r0 (String r1 (String r2 ""))) in *.
  unfold RE_GCMCE_DIR_match.
  change (substring 7 4 ("DL-DOL-" +:+ g +:+ "-" +:+ r)) with g.
  change (substring 12 3 ("DL-DOL-" +:+ g +:+ "-" +:+ r)) with r.
  rewrite Hg, Hr. change (String.length g =? 4) with true.
  change (String.length r =? 3) with true. cbn [andb].
  by rewrite String.eqb_refl.
Qed.

Lemma default_three_letter_values :
  three_letter_values DEFAULT_REGION3_FROM_LETTER.
Proof.
  intros k v H. apply elem_of_map_to_list in H.
  vm_compute map_to_list in H.
  repeat (apply elem_of_cons in H as [H|H]); try (by apply elem_of_nil in H);
    by simplify_eq.
Qed.

Lemma is_dir_parent t p c :
  is_dir t (p ++ [c]) = true → ∃ es, resolve t p = Ok (Dir es).
Proof.
  unfold is_dir. rewrite resolve_app.
  destruct (resolve t p) as [[|es]|]; [done| |done]. by exists es.
Qed.

(** X5: with a letter table whose values are three capital letters (the
    defaults are), the MCGCP-to-GCMCE conversion can be undone: once the
    destination of a plan item is on disk, the GCMCE-to-MCGCP planner run
    from the output root back to the source root finds it and plans it to
    the directory it came from.  The one exception is a source directory
    whose name ended in a line feed, which the pattern accepts: it comes
    back without it. *)
Theorem conversion_round_trip (t t' : node) (sd_root out_root : path)
    (l2r r2l : gmap string string) (copy_mode copy_mode' : bool)
    (plan : list PlanItem) (p : PlanItem) :
  plan_mcgcp_to_gcmce t sd_root out_root l2r copy_mode = Ok plan →
  p ∈ plan →
  three_letter_values l2r →
  is_dir t' (dst_dir p) = true →
  exists_ t' (dst_file p) = true →
  ∃ plan' q,
    plan_gcmce_to_mcgcp t' out_root sd_root r2l copy_mode' = Ok plan'
    ∧ q ∈ plan'
    ∧ src_dir q = dst_dir p ∧ src_file q = dst_file p
    ∧ parent (dst_dir q) = parent (src_dir p)
    ∧ (name (src_dir p) = name (dst_dir q)
       ∨ name (src_dir p) = name (dst_dir q) +:+ Str.nl)
    ∧ dst_file q = dst_dir q ++ [name (dst_dir q) +:+ "-1.raw"].
Proof.
  intros Hplan Hin Hl2r Hdir' Hex'.
  destruct (plan_mcgcp_elem_inv _ _ _ _ _ _ _ Hplan Hin)
    as (c & g & Hm & _ & _ & Hp).
  apply RE_MCGCP_DIR_match_Some in Hm as (_ & Hlen & Hall & Hname).
  destruct (last_char_4 g Hlen Hall) as (a & Hlast & _ & _).
  unfold plan_mcgcp_item in Hp. rewrite Hlast in Hp. injection Hp as <-.
  cbn [dst_dir dst_file src_dir src_file] in *.
  set (r := default "OTH" (l2r !! Str.upper (Str.of_char a))) in *.
  assert (Hr : String.length r = 3 ∧ Str.all_chars Str.is_AZ r = true).
  { unfold r. destruct (l2r !! _) as [v|] eqn:Hv; [by apply (Hl2r _ _ Hv)|].
    done. }
  destruct Hr as [Hr1 Hr2].
  pose proof (RE_GCMCE_DIR_match_build g r Hlen Hall Hr1 Hr2) as Hm'.
  set (D := "DL-DOL-" +:+ g +:+ "-" +:+ r) in *.
  change (is_dir t' ((out_root ++ ["MemoryCards"; "GC"]) ++ [D]) = true)
    in Hdir'.
  change (exists_ t' (((out_root ++ ["MemoryCards"; "GC"]) ++ [D])
                      ++ [D +:+ "-1.raw"]) = true) in Hex'.
  destruct (is_dir_parent _ _ _ Hdir') as [es Hes].
  destruct (scan_gcmce_finds _ _ _ _ _ _ Hes Hdir' Hm' Hex')
    as (entries & Hscan & Hfound).
  unfold plan_gcmce_to_mcgcp. rewrite Hscan. cbn [fmap result_fmap].
  eexists _, (plan_gcmce_item (sd_root ++ ["MemoryCards"]) copy_mode'
                ((out_root ++ ["MemoryCards"; "GC"]) ++ [D],
                 ((out_root ++ ["MemoryCards"; "GC"]) ++ [D])
                 ++ [D +:+ "-1.raw"], g, r)).
  split; [reflexivity|]. split.
  - by apply list_elem_of_fmap_2.
  - cbn [plan_gcmce_item dst_dir dst_file src_dir src_file].
    rewrite !parent_snoc, !name_snoc. repeat split; try done.
    destruct Hname as [->| ->]; [by left|right; by rewrite append_assoc].
Qed.

Lemma conversion_round_trip_witness :
  ∃ plan' q,
    plan_gcmce_to_mcgcp example_gcmce_card ["sd"] ["sd"]
      DEFAULT_LETTER_FROM_REGION3 false = Ok plan'
    ∧ q ∈ plan'
    ∧ src_dir q = dst_dir move_item ∧ src_file q = dst_file move_item
    ∧ parent (dst_dir q) = parent (src_dir move_item)
    ∧ (name (src_dir move_item) = name (dst_dir q)
       ∨ name (src_dir move_item) = name (dst_dir q) +:+ Str.nl)
    ∧ dst_file q = dst_dir q ++ [name (dst_dir q) +:+ "-1.raw"].
Proof.
  apply (conversion_round_trip example_mcgcp_card example_gcmce_card
           ["sd"] ["sd"] DEFAULT_REGION3_FROM_LETTER
           DEFAULT_LETTER_FROM_REGION3 false false [move_item] move_item).
  - vm_compute. reflexivity.
  - apply list_elem_of_here.
  - apply default_three_letter_values.
  - vm_compute. reflexivity.
  - vm_compute. reflexivity.
Defined.

(** An override whose value is not three capital letters breaks the round
    trip: the directory it makes is one the GCMCE scanner passes over. *)
Example four_letter_region_is_not_scanned :
  let l2r := merge_items DEFAULT_REGION3_FROM_LETTER [("e", "usa1")] in
  fmap (M:=result) (fmap (M:=list) (λ p, RE_GCMCE_DIR_match (name (dst_dir p))))
    (plan_mcgcp_to_gcmce example_mcgcp_card ["sd"] ["sd"] l2r false)
  = Ok [None].
Proof. vm_compute. reflexivity. Qed.

(** ** Destinations of different games *)

Lemma append_inj_l s x y : s +:+ x = s +:+ y → x = y.
Proof.
  induction s as [|a s IH]; [done|]. rewrite !append_String.
  intros [= H]. by apply IH.
Qed.

Lemma append_inj_4 g1 g2 s1 s2 :
  String.length g1 = 4 → String.length g2 = 4 →
  g1 +:+ s1 = g2 +:+ s2 → g1 = g2.
Proof.
  destruct g1 as [|a0 [|a1 [|a2 [|a3 [|]]]]]; try discriminate.
  destruct g2 as [|b0 [|b1 [|b2 [|b3 [|]]]]]; try discriminate.
  intros _ _. rewrite !append_String. by intros [= -> -> -> -> _].
Qed.

(** X6: with a letter table whose values hold no slash, two items of one
    plan that go to the same destination directory come from source
    directories with the same game ID, and that destination is one path
    component under the destination root, so that no other name reaches
    it: saves of different games never collide. *)
Theorem same_destination_same_game (t : node) (sd_root out_root : path)
    (l2r r2l : gmap string string) (copy_mode : bool)
    (plan : list PlanItem) (p1 p2 : PlanItem) :
  slash_free_values l2r →
  p1 ∈ plan → p2 ∈ plan → dst_dir p1 = dst_dir p2 →
  (plan_mcgcp_to_gcmce t sd_root out_root l2r copy_mode = Ok plan →
     single_component (name (dst_dir p1))
     ∧ parent (dst_dir p1) = out_root ++ ["MemoryCards"; "GC"]
     ∧ substring 0 4 (name (src_dir p1)) = substring 0 4 (name (src_dir p2)))
  ∧ (plan_gcmce_to_mcgcp t sd_root out_root r2l copy_mode = Ok plan →
       single_component (name (dst_dir p1))
       ∧ parent (dst_dir p1) = out_root ++ ["MemoryCards"]
       ∧ substring 7 4 (name (src_dir p1))
         = substring 7 4 (name (src_dir p2))).
Proof.
  intros Hl2r Hin1 Hin2 Hdst. split; intros Hplan.
  - destruct (plan_mcgcp_elem_inv _ _ _ _ _ _ _ Hplan Hin1)
      as (c1 & g1 & Hm1 & _ & _ & Hp1).
    destruct (plan_mcgcp_elem_inv _ _ _ _ _ _ _ Hplan Hin2)
      as (c2 & g2 & Hm2 & _ & _ & Hp2).
    apply RE_MCGCP_DIR_match_Some in Hm1 as (Hg1 & Hlen1 & Hall1 & _).
    apply RE_MCGCP_DIR_match_Some in Hm2 as (Hg2 & Hlen2 & _).
    unfold plan_mcgcp_item in Hp1, Hp2.
    destruct (Str.last_char g1) as [a1|]; [|done].
    destruct (Str.last_char g2); [|done].
    injection Hp1 as <-. injection Hp2 as <-.
    cbn [dst_dir src_dir] in *. rewrite !name_snoc, <- Hg1, <- Hg2.
    split; [|split].
    + apply (gcmce_name_single g1 _ Hall1 (region3_slash_free _ _ Hl2r)).
    + unfold parent. by rewrite removelast_last.
    + apply app_inj_tail in Hdst as [_ Hdst].
      apply append_inj_l in Hdst. by apply append_inj_4 in Hdst.
  - destruct (plan_gcmce_elem_inv _ _ _ _ _ _ _ Hplan Hin1)
      as (c1 & g1 & r1 & Hm1 & _ & _ & ->).
    destruct (plan_gcmce_elem_inv _ _ _ _ _ _ _ Hplan Hin2)
      as (c2 & g2 & r2 & Hm2 & _ & _ & ->).
    pose proof (RE_GCMCE_DIR_match_Some _ _ _ Hm1) as [Hg1 _].
    pose proof (RE_GCMCE_DIR_match_Some _ _ _ Hm2) as [Hg2 _].
    pose proof (RE_GCMCE_DIR_match_AZ09 _ _ _ Hm1) as Hall1.
    cbn [plan_gcmce_item dst_dir src_dir] in *.
    rewrite !name_snoc.
    split; [|split].
    + apply (mcgcp_name_single g1 Hall1).
    + unfold parent. by rewrite removelast_last.
    + rewrite <- Hg1, <- Hg2.
      apply app_inj_tail in Hdst as [_ Hdst].
      unfold RE_GCMCE_DIR_match in Hm1, Hm2.
      rewrite <- Hg1 in Hm1. rewrite <- Hg2 in Hm2.
      destruct (String.length g1 =? 4) eqn:Hl1; [|done].
      destruct (String.length g2 =? 4) eqn:Hl2; [|done].
      apply Nat.eqb_eq in Hl1, Hl2. by apply append_inj_4 in Hdst.
Qed.

Lemma same_destination_same_game_witness :
  let p1 := default move_item (gcmce_plan !! 0) in
  let p2 := default move_item (gcmce_plan !! 1) in
  name (src_dir p1) ≠ name (src_dir p2)
  ∧ dst_dir p1 = dst_dir p2
  ∧ single_component (name (dst_dir p1))
  ∧ parent (dst_dir p1) = ["sd"] ++ ["MemoryCards"]
  ∧ substring 7 4 (name (src_dir p1)) = substring 7 4 (name (src_dir p2)).
Proof.
  cbv zeta. split; [vm_compute; discriminate|]. split; [reflexivity|].
  apply (same_destination_same_game gcmce_tree ["sd"] ["sd"]
           DEFAULT_REGION3_FROM_LETTER DEFAULT_LETTER_FROM_REGION3 false
           gcmce_plan).
  - apply default_slash_free_values.
  - apply (list_elem_of_lookup_2 _ 0). reflexivity.
  - apply (list_elem_of_lookup_2 _ 1). reflexivity.
  - reflexivity.
  - vm_compute. reflexivity.
Defined.

(** ** Running a plan *)

(** X7: a dry run never fails and never touches the disk, whatever the plan,
    the disk and the other flags: it prints one line per item, in plan
    order, and returns. *)
Theorem execute_plan_dry_run_output (plan : list PlanItem)
    (overwrite verbose : bool) (w : world) :
  execute_plan plan overwrite true verbose w
  = (World (fs w) (busy w) (stdout w ++ (dry_run_line <$> plan)) (stderr w),
     Ok tt).
Proof.
  revert w. induction plan as [|p plan IH]; intros w.
  - cbn. rewrite app_nil_r. by destruct w.
  - cbn [execute_plan]. unfold execute_item.
    rewrite (bind_Ok _ _ w
               (World (fs w) (busy w) (stdout w ++ [dry_run_line p]) (stderr w))
               tt) by done.
    rewrite IH. cbn [fs busy stdout stderr fmap list_fmap].
    by rewrite <- app_assoc.
Qed.

Lemma execute_plan_app l1 l2 overwrite dry_run verbose w :
  execute_plan (l1 ++ l2) overwrite dry_run verbose w
  = (execute_plan l1 overwrite dry_run verbose ;;
     execute_plan l2 overwrite dry_run verbose) w.
Proof.
  revert w. induction l1 as [|p l1 IH]; intros w; [done|].
  cbn [app execute_plan]. unfold mbind, M_bind in *.
  destruct (execute_item p overwrite dry_run verbose w) as [w1 [[]|e]];
    [apply IH|done].
Qed.

(** X8: a plan is run in order and stops at the first item that raises: the
    items before it have taken effect and stay so, the items after it are
    not touched. *)
Theorem execute_plan_stops_at_failure (before rest : list PlanItem)
    (p : PlanItem) (overwrite dry_run verbose : bool) (w w1 w2 : world)
    (e : exn) :
  execute_plan before overwrite dry_run verbose w = (w1, Ok tt) →
  execute_item p overwrite dry_run verbose w1 = (w2, Raise e) →
  execute_plan (before ++ p :: rest) overwrite dry_run verbose w
  = (w2, Raise e).
Proof.
  intros Hbefore Hp. rewrite execute_plan_app.
  rewrite (bind_Ok _ _ _ _ _ Hbefore). cbn [execute_plan].
  by apply bind_Raise.
Qed.

Lemma execute_plan_stops_at_failure_witness :
  execute_plan ([copy_item] ++ collision_item :: [move_item]) false false
    false collision_world = (copied_world, Raise FileExistsError)
  ∧ resolve (fs copied_world) (dst_file copy_item) = Ok (File "new")
  ∧ resolve (fs copied_world) (src_file move_item) = Ok (File "new").
Proof.
  split; [|split; vm_compute; reflexivity].
  apply (execute_plan_stops_at_failure [copy_item] [move_item] collision_item
           false false false collision_world copied_world copied_world
           FileExistsError); vm_compute; reflexivity.
Defined.

(** ** What a successful copy or move leaves behind *)

Lemma mkdir_p_frame_inv t p t' q n :
  mkdir_p t p = Ok t' → ¬ q `prefix_of` p →
  resolve t' q = Ok n → resolve t q = Ok n.
Proof.
  revert t t' q. induction p as [|c p IH]; intros t t' q H Hq Hn.
  - cbn in H. destruct t; by simplify_eq.
  - cbn in H. destruct t as [|es]; [done|].
    destruct (mkdir_p _ p) as [r|] eqn:Hr; [|done]. simplify_eq.
    destruct q as [|c' q]; [destruct Hq; apply prefix_nil|].
    cbn [resolve] in *. destruct (decide (c = c')) as [<-|Hc].
    + rewrite lookup_insert_eq in Hn.
      assert (Hq' : ¬ q `prefix_of` p) by (intros ?; by apply Hq, prefix_cons).
      destruct (es !! c) as [t0|]; cbn in Hr.
      * by apply (IH _ _ _ Hr Hq').
      * pose proof (IH _ _ _ Hr Hq' Hn) as H0.
        destruct q as [|c2 q]; [destruct Hq'; apply prefix_nil|]. done.
    + by rewrite lookup_insert_ne in Hn.
Qed.

Lemma resolve_prefix t p k n :
  resolve t (p ++ k) = Ok n → exists_ t p = true.
Proof.
  unfold exists_. rewrite resolve_app. by destruct (resolve t p).
Qed.

Lemma parent_app_prefix (p k : path) : k ≠ [] → p `prefix_of` parent (p ++ k).
Proof.
  intros Hk. unfold parent. rewrite removelast_app by done.
  by apply prefix_app_r.
Qed.

(** Below a regular file nothing is a directory. *)
Lemma not_dir_below_file t p k data :
  resolve t p = Ok (File data) → is_dir t (p ++ k) = false.
Proof.
  intros H. unfold is_dir. rewrite (resolve_app_Ok _ _ _ _ H).
  by destruct k.
Qed.

Lemma clear_destination_clears dst overwrite w w0 :
  clear_destination dst overwrite w = (w0, Ok tt) →
  exists_ (fs w0) dst = false.
Proof.
  unfold clear_destination, mkdir_parents, exists_m, reading, mbind, M_bind.
  destruct (mkdir_p (fs w) (parent dst)) as [ta|] eqn:Hta; [|done].
  unfold set_fs. cbn [fs].
  destruct (exists_ ta dst) eqn:He; [|by intros [= <-]].
  destruct overwrite; [|done].
  unfold remove_existing, is_dir_m, reading, mbind, M_bind, rmtree, unlink.
  unfold is_dir, set_fs. cbn [fs busy stdout stderr]. intros H.
  assert (Hres : dst ≠ [] ∧ fs w0 = remove ta dst).
  { unfold exists_ in He.
    destruct (resolve ta dst) as [[|es]|] eqn:Hr;
      cbv beta iota zeta delta [fs] in H; rewrite ?Hr in H;
      destruct dst; by simplify_eq. }
  destruct Hres as [Hne ->]. by apply exists_remove.
Qed.

Lemma copy2_Ok src dst w w1 :
  copy2 src dst w = (w1, Ok tt) → exists_ (fs w) dst = false →
  ∃ data, resolve (fs w) src = Ok (File data)
          ∧ src ≠ dst
          ∧ is_dir (fs w) (parent dst) = true
          ∧ w1 = set_fs (put (fs w) dst (File data)) w.
Proof.
  unfold copy2, exists_, is_dir. intros H He.
  destruct (resolve (fs w) dst) as [|e] eqn:Hdst; [done|].
  destruct (resolve (fs w) src) as [[data|]|]; [|done|done].
  destruct (bool_decide (src = dst)) eqn:Heq; [done|].
  apply bool_decide_eq_false in Heq. rewrite Hdst in H.
  destruct (resolve (fs w) (parent dst)) as [[|es]|]; [done| |done].
  exists data. by simplify_eq.
Qed.

(** X9: after a successful [safe_copy] the source is still the regular file it
    was and the destination is a regular file with the same data. *)
Theorem safe_copy_result (src dst : path) (overwrite : bool) (w w1 : world) :
  safe_copy src dst overwrite w = (w1, Ok tt) →
  ∃ data,
    resolve (fs w) src = Ok (File data)
    ∧ resolve (fs w1) src = Ok (File data)
    ∧ resolve (fs w1) dst = Ok (File data).
Proof.
  rewrite safe_copy_clear. intros H.
  apply bind_inv_Ok in H as (w0 & [] & Hclear & Hcopy).
  pose proof (clear_destination_clears _ _ _ _ Hclear) as Hno.
  apply clear_destination_Ok in Hclear as (_ & ta & Hta & Hw0).
  apply copy2_Ok in Hcopy as (data & Hs0 & Hne & Hpar & ->); [|done].
  assert (Hsd : ¬ src `prefix_of` dst).
  { intros [k ->]. destruct k as [|c k]; [by rewrite app_nil_r in Hne|].
    destruct (parent_app_prefix src (c :: k)) as [k' Hk']; [done|].
    by rewrite Hk', (not_dir_below_file _ _ _ _ Hs0) in Hpar. }
  assert (Hds : ¬ dst `prefix_of` src).
  { intros [k ->]. by rewrite (resolve_prefix _ _ _ _ Hs0) in Hno. }
  exists data. cbn [fs set_fs]. split; [|split].
  - assert (Hsa : resolve ta src = Ok (File data)).
    { destruct Hw0 as [<-|(_ & _ & Hw0)]; [done|].
      rewrite Hw0 in Hs0. by rewrite remove_unrelated in Hs0. }
    apply (mkdir_p_frame_inv _ _ _ _ _ Hta); [|done].
    intros Hp. pose proof (mkdir_p_chain _ _ _ _ Hta Hp) as Hdir.
    unfold is_dir in Hdir. by rewrite Hsa in Hdir.
  - by rewrite put_unrelated.
  - by apply put_resolve.
Qed.

Lemma safe_copy_result_witness :
  safe_copy (src_file copy_item) (dst_file copy_item) false collision_world
  = (copied_world, Ok tt)
  ∧ ∃ data,
      resolve (fs collision_world) (src_file copy_item) = Ok (File data)
      ∧ resolve (fs copied_world) (src_file copy_item) = Ok (File data)
      ∧ resolve (fs copied_world) (dst_file copy_item) = Ok (File data).
Proof.
  assert (H : safe_copy (src_file copy_item) (dst_file copy_item) false
                collision_world = (copied_world, Ok tt))
    by (vm_compute; reflexivity).
  split; [exact H|].
  exact (safe_copy_result _ _ _ _ _ H).
Defined.

(** X10: after a successful [safe_move] to another path nothing is left at the
    source, and the destination holds what the source held, a file or a
    whole directory. *)
Theorem safe_move_result (src dst : path) (overwrite : bool) (w w1 : world) :
  safe_move src dst overwrite w = (w1, Ok tt) →
  src ≠ dst →
  ∃ s,
    resolve (fs w) src = Ok s
    ∧ resolve (fs w1) dst = Ok s
    ∧ exists_ (fs w1) src = false.
Proof.
  rewrite safe_move_clear. intros H Hne.
  apply bind_inv_Ok in H as (w0 & [] & Hclear & Hrep).
  apply clear_destination_Ok in Hclear as (_ & ta & Hta & Hw0).
  apply replace_Ok in Hrep as (s & Hs0 & Hsd & Hpar & Hempty & ->); [|done].
  assert (Hsp : ¬ src `prefix_of` parent dst).
  { intros Hp. apply Hsd. etrans; [done|apply parent_prefix]. }
  assert (Hds : ¬ dst `prefix_of` src).
  { intros [k ->]. destruct k as [|c k]; [by rewrite app_nil_r in Hne|].
    apply resolve_above in Hs0 as (es & Hes & Hnonempty).
    by rewrite (Hempty _ Hes) in Hnonempty. }
  assert (Hsrc : src ≠ []).
  { intros ->. apply Hsd, prefix_nil. }
  exists s. cbn [fs set_fs]. split; [|split].
  - assert (Hsa : resolve ta src = Ok s).
    { destruct Hw0 as [<-|(_ & _ & Hw0)]; [done|].
      rewrite Hw0 in Hs0. by rewrite remove_unrelated in Hs0. }
    by apply (mkdir_p_frame_inv _ _ _ _ _ Hta).
  - by apply put_resolve, remove_keeps_dir.
  - unfold exists_. rewrite put_unrelated by done.
    by apply exists_remove.
Qed.

Lemma safe_move_result_witness :
  safe_move (src_file move_item) (dst_file move_item) false move_world
  = (moved_world, Ok tt)
  ∧ src_file move_item ≠ dst_file move_item
  ∧ ∃ s,
      resolve (fs move_world) (src_file move_item) = Ok s
      ∧ resolve (fs moved_world) (dst_file move_item) = Ok s
      ∧ exists_ (fs moved_world) (src_file move_item) = false.
Proof.
  assert (H : safe_move (src_file move_item) (dst_file move_item) false
                move_world = (moved_world, Ok tt))
    by (vm_compute; reflexivity).
  assert (Hne : src_file move_item ≠ dst_file move_item) by decide_closed.
  split; [exact H|]. split; [exact Hne|].
  exact (safe_move_result _ _ _ _ _ H Hne).
Defined.

(** ** Copying without force destroys nothing *)

Lemma keeps_files_of_fs_preserving {A} (m : M A) :
  fs_preserving m → keeps_files m.
Proof. intros H w q data. by rewrite H. Qed.

Lemma keeps_files_bind {A B} (m : M A) (f : A → M B) :
  keeps_files m → (∀ a, keeps_files (f a)) → keeps_files (m ≫= f).
Proof.
  intros Hm Hf w q data Hq. unfold mbind, M_bind. specialize (Hm w q data Hq).
  destruct (m w) as [w1 [a|e]]; cbn in *; [|done]. by apply Hf.
Qed.

Lemma mkdir_p_keeps_file t p t' q data :
  mkdir_p t p = Ok t' →
  resolve t q = Ok (File data) → resolve t' q = Ok (File data).
Proof.
  revert t t' q. induction p as [|c p IH]; intros t t' q H Hq.
  - cbn in H. destruct t; by simplify_eq.
  - cbn in H. destruct t as [|es]; [done|].
    destruct (mkdir_p _ p) as [r|] eqn:Hr; [|done]. simplify_eq.
    destruct q as [|c' q]; [done|].
    cbn [resolve] in *. destruct (decide (c = c')) as [<-|Hc].
    + rewrite lookup_insert_eq. destruct (es !! c) as [t0|]; [|done].
      by apply (IH _ _ _ Hr).
    + by rewrite lookup_insert_ne.
Qed.

Lemma keeps_files_mkdir_parents p : keeps_files (mkdir_parents p).
Proof.
  intros w q data Hq. unfold mkdir_parents.
  destruct (mkdir_p (fs w) p) as [t'|] eqn:Ht; [|done].
  by apply (mkdir_p_keeps_file _ _ _ _ _ Ht).
Qed.

(** Writing to a path that does not exist, under a directory that does,
    leaves the files that are there. *)
Lemma put_fresh_keeps_file t dst new q data :
  exists_ t dst = false → is_dir t (parent dst) = true →
  resolve t q = Ok (File data) →
  resolve (put t dst new) q = Ok (File data).
Proof.
  intros Hno Hpar Hq. rewrite put_unrelated; [done| |].
  - intros [k ->]. by rewrite (resolve_prefix _ _ _ _ Hq) in Hno.
  - intros [k ->]. destruct k as [|c k].
    + rewrite app_nil_r in Hno. unfold exists_ in Hno. by rewrite Hq in Hno.
    + destruct (parent_app_prefix q (c :: k)) as [k' Hk']; [done|].
      by rewrite Hk', (not_dir_below_file _ _ _ _ Hq) in Hpar.
Qed.

Lemma copy2_fresh_keeps_file src dst w q data :
  exists_ (fs w) dst = false →
  resolve (fs w) q = Ok (File data) →
  resolve (fs (copy2 src dst w).1) q = Ok (File data).
Proof.
  intros Hno Hq. destruct (copy2 src dst w) as [w1 [[]|e]] eqn:Hc.
  - apply copy2_Ok in Hc as (d & _ & _ & Hpar & ->); [|done].
    by apply put_fresh_keeps_file.
  - revert Hc. unfold copy2.
    assert (is_dir (fs w) dst = false) as ->.
    { unfold is_dir, exists_ in *. by destruct (resolve (fs w) dst). }
    unfold exists_ in Hno.
    destruct (resolve (fs w) src) as [[d|es]|e'];
      try (intros ?; by simplify_eq/=).
    destruct (bool_decide _); [intros ?; by simplify_eq/=|].
    destruct (resolve (fs w) dst); [done|].
    destruct (resolve (fs w) (parent dst)) as [[|]|]; intros ?;
      by simplify_eq/=.
Qed.

Lemma keeps_files_safe_copy src dst : keeps_files (safe_copy src dst false).
Proof.
  intros w q data Hq. rewrite safe_copy_clear.
  unfold clear_destination, mkdir_parents, exists_m, reading, raise.
  unfold mbind, M_bind.
  destruct (mkdir_p (fs w) (parent dst)) as [ta|] eqn:Hta; [|done].
  pose proof (mkdir_p_keeps_file _ _ _ _ _ Hta Hq) as Hqa.
  unfold set_fs. cbn [fs]. destruct (exists_ ta dst) eqn:He; [done|].
  cbv beta iota. by apply copy2_fresh_keeps_file.
Qed.

Lemma keeps_files_execute_item p dry_run verbose :
  action p ≠ "move" → keeps_files (execute_item p false dry_run verbose).
Proof.
  intros Hp. unfold execute_item. destruct dry_run.
  - apply keeps_files_of_fs_preserving, fs_preserving_print.
  - apply String.eqb_neq in Hp. rewrite Hp.
    apply keeps_files_bind; [apply keeps_files_safe_copy|].
    intros _. apply keeps_files_of_fs_preserving, fs_preserving_log.
Qed.

(** X12: run without force, a plan of copies never changes or removes a
    regular file that is on disk, whether it runs to the end or stops at
    a collision or a missing source. *)
Theorem execute_plan_copy_keeps_files (plan : list PlanItem)
    (dry_run verbose : bool) :
  Forall (λ p, action p ≠ "move") plan →
  keeps_files (execute_plan plan false dry_run verbose).
Proof.
  induction 1 as [|p plan Hp _ IH]; [by apply keeps_files_of_fs_preserving|].
  cbn [execute_plan]. apply keeps_files_bind; [|done].
  by apply keeps_files_execute_item.
Qed.

Lemma execute_plan_copy_keeps_files_witness :
  Forall (λ p, action p ≠ "move") [copy_item; copy_over_item]
  ∧ (execute_plan [copy_item; copy_over_item] false false false
       collision_world).2 = Raise FileExistsError
  ∧ resolve
      (fs (execute_plan [copy_item; copy_over_item] false false false
             collision_world).1)
      (dst_file copy_over_item) = Ok (File "old").
Proof.
  assert (H : Forall (λ p, action p ≠ "move") [copy_item; copy_over_item]).
  { repeat constructor; vm_compute; discriminate. }
  split; [exact H|]. split; [vm_compute; reflexivity|].
  apply (execute_plan_copy_keeps_files _ false false H collision_world).
  vm_compute. reflexivity.
Defined.

Lemma keeps_files_copytree src dst : keeps_files (copytree src dst).
Proof.
  intros w q data Hq. unfold copytree.
  destruct (resolve (fs w) src) as [[|es]|]; [done| |done].
  destruct (exists_ (fs w) dst) eqn:Hno; [done|].
  destruct (copies_into_itself _ _ _); [done|].
  destruct (mkdir_p (fs w) dst) as [t'|] eqn:Ht; [|done]. cbn.
  pose proof (mkdir_p_keeps_file _ _ _ _ _ Ht Hq) as Hq'.
  rewrite put_unrelated; [done| |].
  - intros [k ->]. by rewrite (resolve_prefix _ _ _ _ Hq) in Hno.
  - intros Hp. pose proof (mkdir_p_chain _ _ _ _ Ht Hp) as Hdir.
    unfold is_dir in Hdir. by rewrite Hq' in Hdir.
Qed.

Lemma keeps_files_do_backup sd_root backup_dir dry_run :
  keeps_files (do_backup sd_root backup_dir false dry_run).
Proof.
  unfold do_backup. destruct dry_run.
  - apply keeps_files_of_fs_preserving, fs_preserving_print.
  - apply keeps_files_bind.
    { apply keeps_files_of_fs_preserving, fs_preserving_reading. }
    intros e. rewrite andb_false_r.
    apply keeps_files_bind.
    { apply keeps_files_of_fs_preserving, fs_preserving_ret. }
    intros _. apply keeps_files_bind.
    { apply keeps_files_of_fs_preserving, fs_preserving_print. }
    intros _. apply keeps_files_copytree.
Qed.

Lemma keeps_files_reading_bind {A B} (r : node → result A) (f : A → M B) :
  (∀ t a, r t = Ok a → keeps_files (f a)) → keeps_files (reading r ≫= f).
Proof.
  intros H w q data Hq. unfold mbind, M_bind, reading.
  destruct (r (fs w)) as [a|e] eqn:Hr; [|done]. by apply (H _ _ Hr).
Qed.

Lemma build_plan_copy_actions args sd_root out_root l2r r2l t plan :
  build_plan args sd_root out_root l2r r2l true t = Ok plan →
  Forall (λ p, action p ≠ "move") plan.
Proof.
  unfold build_plan. intros Hplan. apply Forall_forall. intros p Hin.
  destruct (arg_rename_to_gcmce args).
  - destruct (plan_mcgcp_elem_inv _ _ _ _ _ _ _ Hplan Hin)
      as (c & g & _ & _ & _ & Hp).
    unfold plan_mcgcp_item in Hp. destruct (Str.last_char g); [|done].
    by injection Hp as <-.
  - by destruct (plan_gcmce_elem_inv _ _ _ _ _ _ _ Hplan Hin)
      as (c & g & r & _ & _ & _ & ->).
Qed.

(** X13: a whole run that writes to another output root, without force, never
    changes or removes a regular file that is on disk: not in the backup
    step, not in the conversion, and not when it ends in an exception. *)
Theorem main_copy_mode_keeps_files
    (json_load : string → result region_override) (args : Args)
    (out_root : path) :
  arg_force args = false →
  arg_output_sd_root args = Some out_root →
  out_root ≠ arg_sd_root args →
  keeps_files (main json_load args).
Proof.
  intros Hforce Hout Hne. unfold main. rewrite Hforce, Hout. cbn [default].
  rewrite (bool_decide_eq_false_2 _ Hne). cbn [negb].
  apply keeps_files_bind.
  { apply keeps_files_of_fs_preserving, fs_preserving_reading. }
  intros found. destruct (negb found).
  { apply keeps_files_of_fs_preserving. fs_frame. }
  apply keeps_files_bind.
  { apply keeps_files_of_fs_preserving, fs_preserving_load_region_map. }
  intros [l2r r2l]. apply keeps_files_bind.
  { destruct (arg_backup_dir args) as [backup_dir|].
    - apply keeps_files_bind; [apply keeps_files_mkdir_parents|].
      intros _. apply keeps_files_do_backup.
    - apply keeps_files_of_fs_preserving, fs_preserving_ret. }
  intros _. apply keeps_files_reading_bind. intros t plan Hplan.
  apply build_plan_copy_actions in Hplan.
  destruct plan as [|p plan].
  { apply keeps_files_of_fs_preserving. fs_frame. }
  apply keeps_files_bind.
  { apply keeps_files_of_fs_preserving, fs_preserving_print_plan. }
  intros _. apply keeps_files_bind.
  { apply keeps_files_of_fs_preserving. destruct (arg_verbose args); fs_frame. }
  intros _. apply keeps_files_bind.
  { induction Hplan as [|p0 plan0 Hp0 _ IH];
      [by apply keeps_files_of_fs_preserving|].
    cbn [execute_plan]. apply keeps_files_bind; [|done].
    by apply keeps_files_execute_item. }
  intros _. apply keeps_files_of_fs_preserving. fs_frame.
Qed.

Lemma main_copy_mode_keeps_files_witness :
  (main no_json copy_args collision_world).2 = Ok 0%Z
  ∧ resolve (fs (main no_json copy_args collision_world).1)
      ["sd"; "MemoryCards"; "GAFE0100"; "GAFE0100-1.raw"] = Ok (File "new")
  ∧ resolve (fs (main no_json copy_args collision_world).1)
      ["out"; "MemoryCards"; "GC"; "DL-DOL-GAFE-USA"; "DL-DOL-GAFE-USA-1.raw"]
    = Ok (File "new")
  ∧ is_dir (fs (main no_json copy_args collision_world).1)
      ["backup"; "MemoryCards.backup"; "GAFE0100"] = true.
Proof.
  split; [vm_compute; reflexivity|]. split; [|split; vm_compute; reflexivity].
  apply (main_copy_mode_keeps_files no_json copy_args ["out"]).
  - reflexivity.
  - reflexivity.
  - decide_closed.
  - vm_compute. reflexivity.
Defined.

(** ** The backup step *)

Lemma copytree_Ok src dst w w1 :
  copytree src dst w = (w1, Ok tt) →
  ∃ es t',
    resolve (fs w) src = Ok (Dir es)
    ∧ exists_ (fs w) dst = false
    ∧ mkdir_p (fs w) dst = Ok t'
    ∧ w1 = set_fs (put t' dst (Dir es)) w.
Proof.
  unfold copytree. destruct (resolve (fs w) src) as [[|es]|]; [done| |done].
  destruct (exists_ (fs w) dst); [done|].
  destruct (copies_into_itself _ _ _); [done|].
  destruct (mkdir_p (fs w) dst) as [t'|]; [|done].
  intros [= <-]. by exists es, t'.
Qed.

(** X14: after a successful backup to a place outside the memory-card tree the
    tree is as it was and the backup directory holds a copy of it. *)
Theorem do_backup_result (sd_root backup_dir : path) (overwrite : bool)
    (w w1 : world) :
  do_backup sd_root backup_dir overwrite false w = (w1, Ok tt) →
  ¬ (sd_root ++ ["MemoryCards"])
      `prefix_of` (backup_dir ++ ["MemoryCards.backup"]) →
  ∃ es,
    resolve (fs w) (sd_root ++ ["MemoryCards"]) = Ok (Dir es)
    ∧ resolve (fs w1) (sd_root ++ ["MemoryCards"]) = Ok (Dir es)
    ∧ resolve (fs w1) (backup_dir ++ ["MemoryCards.backup"]) = Ok (Dir es).
Proof.
  unfold do_backup.
  set (src := sd_root ++ ["MemoryCards"]).
  set (dst := backup_dir ++ ["MemoryCards.backup"]).
  intros H Hsd.
  apply bind_inv_Ok in H as (w' & e & He & H). injection He as <- <-.
  apply bind_inv_Ok in H as (wa & [] & Hrm & H).
  apply bind_inv_Ok in H as (wb & [] & Hpr & H). injection Hpr as <-.
  apply copytree_Ok in H as (es & t' & Hsrc & Hno & Ht' & ->).
  cbn [fs set_fs] in *.
  assert (Hds : ¬ dst `prefix_of` src).
  { intros [k Hk]. rewrite Hk in Hsrc.
    by rewrite (resolve_prefix _ _ _ _ Hsrc) in Hno. }
  exists es. split; [|split].
  - destruct (exists_ (fs w) dst && overwrite) eqn:Hcase.
    + apply andb_prop in Hcase as [Hex _].
      change (remove_existing dst w = (wa, Ok tt)) in Hrm.
      rewrite remove_existing_removes in Hrm; [|done|by destruct backup_dir].
      injection Hrm as <-. cbn [fs set_fs] in Hsrc.
      by rewrite remove_unrelated in Hsrc.
    + by injection Hrm as <-.
  - rewrite put_unrelated by done. by apply (mkdir_p_frame _ _ _ _ _ Ht').
  - apply put_resolve. apply (mkdir_p_chain _ _ _ _ Ht'), parent_prefix.
Qed.

Lemma do_backup_result_witness :
  do_backup ["sd"] ["backup"] false false move_world
  = (backed_up_world, Ok tt)
  ∧ ∃ es,
      resolve (fs move_world) (["sd"] ++ ["MemoryCards"]) = Ok (Dir es)
      ∧ resolve (fs backed_up_world) (["sd"] ++ ["MemoryCards"]) = Ok (Dir es)
      ∧ resolve (fs backed_up_world) (["backup"] ++ ["MemoryCards.backup"])
        = Ok (Dir es).
Proof.
  assert (H : do_backup ["sd"] ["backup"] false false move_world
              = (backed_up_world, Ok tt)) by (vm_compute; reflexivity).
  split; [exact H|].
  apply (do_backup_result _ _ _ _ _ H). decide_closed.
Defined.

(** ** Runs that stop early *)



Lemma load_region_map_world json_load file w :
  (load_region_map json_load file w).1 = w.
Proof.
  destruct file as [f|]; [|done]. cbn [load_region_map].
  unfold read_text, reading, mbind, M_bind.
  destruct (resolve (fs w) f) as [[data|es]|]; [|done|done].
  by destruct (json_load data).
Qed.

(** X16: an override file that cannot be read or parsed stops the run at once:
    [main] raises what the reader raised, before the backup directory is
    made and before anything is printed or converted.  A file that is not
    there raises FileNotFoundError. *)
Theorem main_unreadable_region_map
    (json_load : string → result region_override) (args : Args) (w : world) :
  exists_ (fs w) (arg_sd_root args ++ ["MemoryCards"]) = true →
  (∀ e, (load_region_map json_load (arg_region_map_json args) w).2 = Raise e →
        main json_load args w = (w, Raise e))
  ∧ (∀ f, arg_region_map_json args = Some f → exists_ (fs w) f = false →
          ∃ e, main json_load args w = (w, Raise e)
               ∧ (is_dir (fs w) (parent f) = true → e = FileNotFoundError)).
Proof.
  intros Hfound.
  assert (Hmain : ∀ e,
    (load_region_map json_load (arg_region_map_json args) w).2 = Raise e →
    main json_load args w = (w, Raise e)).
  { intros e He. unfold main, exists_m.
    rewrite (bind_Ok _ _ w w true) by (unfold reading; by rewrite Hfound).
    cbn [negb]. apply bind_Raise.
    pose proof (load_region_map_world json_load (arg_region_map_json args) w).
    destruct (load_region_map _ _ w) as [w' r]. cbn in *. by subst. }
  split; [done|]. intros f Hf Hno.
  assert (Hload : ∃ e,
    (load_region_map json_load (Some f) w).2 = Raise e
    ∧ (is_dir (fs w) (parent f) = true → e = FileNotFoundError)).
  { cbn [load_region_map]. unfold read_text, reading, mbind, M_bind.
    unfold exists_ in Hno.
    destruct (resolve (fs w) f) as [|e] eqn:Hr; [done|].
    exists e. split; [done|]. unfold is_dir. clear Hno Hmain Hfound Hf.
    revert Hr. generalize (fs w). induction f as [|c f IH]; intros t; [done|].
    cbn [resolve]. destruct t as [|es].
    - intros _. by destruct f.
    - destruct (es !! c) as [t'|] eqn:Hc.
      + destruct f as [|c' f].
        * done.
        * intros Hr Hp. apply (IH _ Hr). unfold parent in *.
          cbn [removelast resolve] in Hp. by rewrite Hc in Hp.
      + by intros [= <-]. }
  destruct Hload as (e & He & Hnf). exists e. split; [|done].
  apply Hmain. by rewrite Hf.
Qed.

Lemma main_unreadable_region_map_witness :
  main no_json missing_map_args move_world = (move_world, Raise FileNotFoundError).
Proof.
  destruct (main_unreadable_region_map no_json missing_map_args move_world)
    as [_ H]; [vm_compute; reflexivity|].
  destruct (H ["map.json"]) as (e & Hmain & He);
    [reflexivity | vm_compute; reflexivity |].
  rewrite Hmain. f_equal. f_equal. apply He. vm_compute. reflexivity.
Defined.

(** ** How far a dry run can change the disk *)

Lemma fs_bind_preserving {A B} (m : M A) (f : A → M B) w :
  (∀ a, fs_preserving (f a)) → fs ((m ≫= f) w).1 = fs (m w).1.
Proof.
  intros Hf. unfold mbind, M_bind. destruct (m w) as [w1 [a|e]]; [|done].
  apply Hf.
Qed.

(** The steps of [main] that follow the backup step leave the disk alone
    in a dry run. *)
Lemma main_dry_run_tail args sd_root out_root l2r r2l (copy_mode : bool) :
  fs_preserving
    (reading (build_plan args sd_root out_root l2r r2l copy_mode)
     ≫= λ plan : list PlanItem,
     match plan return M Z with
     | [] =>
         print "No convertible entries found. Check source layout and flags." ;;
         mret 0%Z
     | _ :: _ =>
         print_plan plan ;;
         (if arg_verbose args then
            print ("Execute: overwrite=" +:+ bool_str (arg_force args)
                   +:+ " dry_run=" +:+ bool_str true
                   +:+ " mode=" +:+ (if copy_mode then "COPY" else "MOVE"))
          else mret tt) ;;
         execute_plan plan (arg_force args) true (arg_verbose args) ;;
         print "Done." ;;
         mret 0%Z
     end).
Proof.
  apply fs_preserving_bind; [fs_frame|]. intros [|p plan]; [fs_frame|].
  apply fs_preserving_bind; [fs_frame|]. intros _.
  apply fs_preserving_bind; [destruct (arg_verbose args); fs_frame|].
  intros _. fs_frame.
Qed.

(** X17: in a dry run the disk after [main] is the disk before it, except that
    the backup directory, when one is given, may have been made with its
    missing parents: the result of [mkdir] on it and nothing else. *)
Theorem main_dry_run_changes (json_load : string → result region_override)
    (args : Args) (w : world) :
  arg_dry_run args = true →
  fs (main json_load args w).1 = fs w
  ∨ ∃ backup_dir,
      arg_backup_dir args = Some backup_dir
      ∧ mkdir_p (fs w) backup_dir = Ok (fs (main json_load args w).1).
Proof.
  intros Hdry. remember (fs (main json_load args w).1) as t1 eqn:Ht1.
  revert Ht1. unfold main. rewrite Hdry. unfold exists_m.
  set (found := exists_ (fs w) (arg_sd_root args ++ ["MemoryCards"])).
  rewrite (bind_Ok _ _ w w found) by done.
  destruct found; cbn [negb]; [|by left].
  pose proof (load_region_map_world json_load (arg_region_map_json args) w)
    as Hw.
  unfold mbind at 1. unfold M_bind at 1.
  destruct (load_region_map json_load (arg_region_map_json args) w)
    as [w' [[l2r r2l]|e]]; cbn in Hw; subst w'; [|by left].
  rewrite fs_bind_preserving by (intros _; apply main_dry_run_tail).
  destruct (arg_backup_dir args) as [backup_dir|]; [|by left].
  rewrite fs_bind_preserving by (intros _; apply do_backup_dry_run).
  unfold mkdir_parents.
  destruct (mkdir_p (fs w) backup_dir) as [t'|] eqn:Ht; [|by left].
  intros ->. right. by exists backup_dir.
Qed.

Lemma main_dry_run_changes_witness :
  fs (main no_json dry_run_args dry_run_world).1 = fs dry_run_world
  ∨ ∃ backup_dir,
      arg_backup_dir dry_run_args = Some backup_dir
      ∧ mkdir_p (fs dry_run_world) backup_dir
        = Ok (fs (main no_json dry_run_args dry_run_world).1).
Proof.
  apply (main_dry_run_changes no_json dry_run_args dry_run_world).
  reflexivity.
Defined.

(** ** The keys of the region tables *)

Lemma upper_ascii_idemp a : Str.upper_ascii (Str.upper_ascii a) = Str.upper_ascii a.
Proof. by destruct a as [[] [] [] [] [] [] [] []]. Qed.

Lemma upper_idemp s : Str.upper (Str.upper s) = Str.upper s.
Proof.
  induction s as [|a s IH]; [done|]. cbn. by rewrite upper_ascii_idemp, IH.
Qed.

Lemma merge_items_upper_keys table items :
  (∀ k, is_Some (table !! k) → Str.upper k = k) →
  ∀ k, is_Some (merge_items table items !! k) → Str.upper k = k.
Proof.
  intros Htable. induction items as [|[k0 v0] items IH] using rev_ind;
    [done|].
  rewrite merge_items_snoc. intros k.
  destruct (decide (Str.upper k0 = k)) as [<-|Hne].
  - intros _. apply upper_idemp.
  - rewrite lookup_insert_ne by done. apply IH.
Qed.

Lemma default_tables_upper_keys :
  (∀ k, is_Some (DEFAULT_REGION3_FROM_LETTER !! k) → Str.upper k = k)
  ∧ (∀ k, is_Some (DEFAULT_LETTER_FROM_REGION3 !! k) → Str.upper k = k).
Proof.
  split; intros k [v H]; apply elem_of_map_to_list in H;
    vm_compute map_to_list in H;
    repeat (apply elem_of_cons in H as [H|H]); try (by apply elem_of_nil in H);
    by simplify_eq.
Qed.

(** X18: whatever the override file holds, every key of the two tables that
    [load_region_map] returns is in upper case, so that the planner's
    lookup of an upper-cased region letter can reach every entry, and
    every key of the defaults is still bound. *)
Theorem load_region_map_keys (json_load : string → result region_override)
    (file : option path) (w w' : world) (l2r r2l : gmap string string) :
  load_region_map json_load file w = (w', Ok (l2r, r2l)) →
  (∀ k, is_Some (l2r !! k) → Str.upper k = k)
  ∧ (∀ k, is_Some (r2l !! k) → Str.upper k = k)
  ∧ (∀ k, is_Some (DEFAULT_REGION3_FROM_LETTER !! k) → is_Some (l2r !! k))
  ∧ (∀ k, is_Some (DEFAULT_LETTER_FROM_REGION3 !! k) → is_Some (r2l !! k)).
Proof.
  destruct default_tables_upper_keys as [Hl Hr].
  assert (Hkeep : ∀ table items k,
            is_Some (table !! k) → is_Some (merge_items table items !! k)).
  { intros table items k Hk.
    induction items as [|[k0 v0] items IH] using rev_ind; [done|].
    rewrite merge_items_snoc.
    destruct (decide (Str.upper k0 = k)) as [<-|Hne].
    - rewrite lookup_insert_eq. by eexists.
    - by rewrite lookup_insert_ne. }
  destruct file as [f|]; cbn [load_region_map].
  - unfold read_text, reading, mbind, M_bind.
    destruct (resolve (fs w) f) as [[text|]|]; [|done|done].
    destruct (json_load text) as [data|]; [|done].
    unfold merge_region_map. intros [= _ <- <-].
    split; [by apply merge_items_upper_keys|].
    split; [by apply merge_items_upper_keys|].
    split; intros k; apply Hkeep.
  - intros [= _ <- <-]. by repeat split.
Qed.

Lemma load_region_map_keys_witness :
  ∃ l2r r2l,
    load_region_map (λ _, Ok shadowing_override) (Some ["map.json"])
      override_world = (override_world, Ok (l2r, r2l))
    ∧ (∀ k, is_Some (l2r !! k) → Str.upper k = k)
    ∧ (∀ k, is_Some (r2l !! k) → Str.upper k = k)
    ∧ (∀ k, is_Some (DEFAULT_REGION3_FROM_LETTER !! k) → is_Some (l2r !! k))
    ∧ (∀ k, is_Some (DEFAULT_LETTER_FROM_REGION3 !! k) → is_Some (r2l !! k)).
Proof.
  eexists _, _. split; [reflexivity|].
  apply (load_region_map_keys (λ _, Ok shadowing_override)
           (Some ["map.json"]) override_world override_world).
  reflexivity.
Defined.

(** ** When a move or a copy goes through *)

Lemma mkdir_p_parent_fresh t dst t' :
  exists_ t dst = false → mkdir_p t (parent dst) = Ok t' →
  exists_ t' dst = false.
Proof.
  intros Hno Ht. unfold exists_ in *.
  destruct (resolve t' dst) as [n|] eqn:Hn; [|done].
  assert (Hne : dst ≠ []) by (intros ->; by cbn in Hno).
  pose proof (mkdir_p_frame_inv _ _ _ _ _ Ht (not_prefix_of_parent _ Hne) Hn)
    as Hn'.
  by rewrite Hn' in Hno.
Qed.

(** X11: a free destination whose parents can be made is all a move or a copy
    needs.  The move takes whatever is at the source, a file or a
    directory, provided the destination is not inside it; the copy takes
    a regular file.  The resulting disk is the one [mkdir] left, with the
    source entry attached at the destination and, for a move, detached
    from the source. *)
Theorem safe_move_copy_succeed (src dst : path) (overwrite : bool) (w : world)
    (t' : node) :
  exists_ (fs w) dst = false →
  mkdir_p (fs w) (parent dst) = Ok t' →
  (∀ s, resolve (fs w) src = Ok s → ¬ src `prefix_of` dst →
        safe_move src dst overwrite w
        = (set_fs (put (remove t' src) dst s) w, Ok tt))
  ∧ (∀ data, resolve (fs w) src = Ok (File data) →
             safe_copy src dst overwrite w
             = (set_fs (put t' dst (File data)) w, Ok tt)).
Proof.
  intros Hno Ht.
  pose proof (mkdir_p_parent_fresh _ _ _ Hno Ht) as Hno'.
  pose proof (mkdir_p_chain _ _ _ _ Ht (reflexivity _)) as Hpar.
  assert (Hclear : clear_destination dst overwrite w = (set_fs t' w, Ok tt)).
  { unfold clear_destination, mkdir_parents, exists_m, reading.
    unfold mbind, M_bind. rewrite Ht. cbn [fs set_fs]. by rewrite Hno'. }
  unfold exists_, is_dir in *.
  destruct (resolve t' dst) as [|e'] eqn:Hdst; [done|].
  destruct (resolve t' (parent dst)) as [[|esp]|] eqn:Hp; [done| |done].
  split.
  - intros s Hs Hsd. rewrite safe_move_clear, (bind_Ok _ _ _ _ _ Hclear).
    assert (Hs' : resolve t' src = Ok s).
    { apply (mkdir_p_frame _ _ _ _ _ Ht); [|done].
      intros H. apply Hsd. etrans; [done|apply parent_prefix]. }
    unfold replace. cbn [fs set_fs]. rewrite Hs', Hp, Hdst.
    rewrite bool_decide_eq_false_2 by (intros ->; by apply Hsd).
    rewrite bool_decide_eq_false_2 by done. by destruct w.
  - intros data Hs. rewrite safe_copy_clear, (bind_Ok _ _ _ _ _ Hclear).
    assert (Hs' : resolve t' src = Ok (File data))
      by by apply (mkdir_p_keeps_file _ _ _ _ _ Ht).
    unfold copy2, is_dir. cbn [fs set_fs]. rewrite Hdst, Hs', Hdst, Hp.
    rewrite bool_decide_eq_false_2; [by destruct w|].
    intros ->. by rewrite Hs' in Hdst.
Qed.

Lemma safe_move_copy_succeed_witness :
  safe_move (src_file move_item) (dst_file move_item) false move_world
  = (moved_world, Ok tt)
  ∧ safe_copy (src_file copy_item) (dst_file copy_item) false collision_world
    = (copied_world, Ok tt).
Proof.
  split.
  - destruct (safe_move_copy_succeed (src_file move_item) (dst_file move_item)
                false move_world
                (Dir {[ "sd" := Dir {[ "MemoryCards" := Dir {[
                   "GAFE0100" := Dir {[ "GAFE0100-1.raw" := File "save" ]};
                   "GC" := Dir {[ "DL-DOL-GAFE-USA" := Dir ∅ ]} ]} ]} ]}))
      as [Hmove _]; [vm_compute; reflexivity | vm_compute; reflexivity |].
    rewrite (Hmove (File "save")); [vm_compute; reflexivity
                                   | vm_compute; reflexivity | decide_closed].
  - destruct (safe_move_copy_succeed (src_file copy_item) (dst_file copy_item)
                false collision_world
                (put collision_tree
                   ["out"; "MemoryCards"; "GC"; "DL-DOL-GAFE-USA"] (Dir ∅)))
      as [_ Hcopy]; [vm_compute; reflexivity | vm_compute; reflexivity |].
    rewrite (Hcopy "new"); vm_compute; reflexivity.
Defined.






